(** * Sign extraction: a shallow embedding of the colour-box / OCR pipeline
      (src/extraction/color_based_extraction.py) and of the embedded-text
      extractor with its proximity grouper
      (src/extraction/pdf_text_extraction.py) and of its ATL06 variant
      (src/extraction/extract_atl06.py).

    Pixel quantities are integers ([Z]); Python floats are modelled as exact
    rationals ([Q]); strings are [String.string] over ASCII. *)

From Stdlib Require Import ZArith QArith Qabs Lia List String Ascii Bool.
Import ListNotations.

Open Scope Z_scope.

(* ================================================================== *)
(** ** Colour-based pipeline: geometry of boxes *)
(* ================================================================== *)

Module ColorGeometry.

(** A box as returned by [cv2.boundingRect]: [(x, y, w, h)]. *)
Definition rect : Type := (Z * Z * Z * Z)%type.

Definition STANDARD_SIGN_HEIGHT_PIXELS : Z := 40.

(** Python's [round(n / d)] for [d > 0]: the quotient [n / d] rounded to
    the nearest integer, ties to even (banker's rounding). The rational
    [n / d] is computed exactly. *)
Definition py_round_div (n d : Z) : Z :=
  let q := n / d in
  let r := n mod d in
  if 2 * r <? d then q
  else if d <? 2 * r then q + 1
  else if Z.even q then q else q + 1.

(** [range(n)] *)
Definition range (n : Z) : list Z := map Z.of_nat (seq 0 (Z.to_nat n)).

(** [detect_stacked_boxes(box, standard_height)].
    [h > standard_height * 1.5] is [2 * h > 3 * standard_height] over the
    integers; [individual_height = h / stack_count] is kept exact, so
    [int(y + i * individual_height)] is the truncating quotient
    [(y * stack_count + i * h) quot stack_count] and [int(individual_height)]
    is [h quot stack_count]. *)
Definition detect_stacked_boxes (box : rect) (standard_height : Z) : list rect :=
  let '(x, y, w, h) := box in
  if 3 * standard_height <? 2 * h then
    let stack_count := py_round_div h standard_height in
    if 1 <? stack_count then
      map (fun i => (x, Z.quot (y * stack_count + i * h) stack_count, w,
                     Z.quot h stack_count))
          (range stack_count)
    else [box]
  else [box].

(** The region cropped by [extract_sign_number]:
    [(x_start, y_start, x_end, y_end)] for an image of width [W]
    ([image.shape[1]]) and height [H] ([image.shape[0]]). *)
Definition crop_region (W H : Z) (bbox : rect) : Z * Z * Z * Z :=
  let '(x, y, w, h) := bbox in
  let vertical_padding := 50 in
  let horizontal_padding := 20 in
  let x_start := Z.max 0 (x - horizontal_padding) in
  let y_start := Z.max 0 (y - vertical_padding) in
  let x_end := Z.min W (x + w + horizontal_padding) in
  let y_end := Z.min H (y + h + 10) in
  (x_start, y_start, x_end, y_end).

(** The crop the claim describes: 50 pixels above, 20 on each side,
    nothing below, clamped to the page. *)
Definition claimed_crop_region (W H : Z) (bbox : rect) : Z * Z * Z * Z :=
  let '(x, y, w, h) := bbox in
  (Z.max 0 (x - 20), Z.max 0 (y - 50), Z.min W (x + w + 20), Z.min H (y + h)).

End ColorGeometry.

(* ================================================================== *)
(** ** Python string helpers used by both extractors *)
(* ================================================================== *)

Module PyStr.

Local Open Scope char_scope.

(** [str.isspace] on the ASCII range: \t \n \v \f \r, the separators
    \x1c-\x1f and the space. *)
Definition is_space (c : ascii) : bool :=
  let n := nat_of_ascii c in
  ((9 <=? n) && (n <=? 13))%nat || ((28 <=? n) && (n <=? 32))%nat.

(** [str.isdigit] on the ASCII range. *)
Definition is_digit (c : ascii) : bool :=
  let n := nat_of_ascii c in ((48 <=? n) && (n <=? 57))%nat.

Fixpoint drop_while (p : ascii -> bool) (l : list ascii) : list ascii :=
  match l with
  | [] => []
  | c :: l' => if p c then drop_while p l' else l
  end.

(** [s.strip(chars)] for the characters satisfying [p]. *)
Definition strip_by (p : ascii -> bool) (s : string) : string :=
  string_of_list_ascii
    (rev (drop_while p (rev (drop_while p (list_ascii_of_string s))))).

(** [s.strip()] *)
Definition py_strip (s : string) : string := strip_by is_space s.

(** [s.strip('.')] *)
Definition strip_dots (s : string) : string :=
  strip_by (fun c => Ascii.eqb c ".") s.

(** [any(c.isdigit() for c in s)] *)
Fixpoint any_digit (s : string) : bool :=
  match s with
  | EmptyString => false
  | String c s' => is_digit c || any_digit s'
  end.

(** [s.split(sep)] for a one-character separator. *)
Fixpoint split_on (sep : ascii) (s : string) : list string :=
  match s with
  | EmptyString => [EmptyString]
  | String c s' =>
      if Ascii.eqb c sep then EmptyString :: split_on sep s'
      else match split_on sep s' with
           | [] => [String c EmptyString]
           | w :: ws => String c w :: ws
           end
  end.

(** Number of occurrences of [c] in [s]. *)
Fixpoint count_char (c : ascii) (s : string) : nat :=
  match s with
  | EmptyString => 0
  | String d s' => (if Ascii.eqb d c then 1 else 0) + count_char c s'
  end.

(** [s1 in s2] for a one-character [s1]. *)
Definition contains_char (c : ascii) (s : string) : bool :=
  (0 <? count_char c s)%nat.

End PyStr.

(* ================================================================== *)
(** ** OCR ensemble ([extract_sign_number], [process_image]) *)
(* ================================================================== *)

Module OcrEnsemble.

Import ColorGeometry PyStr.

Definition Qlt_b (a b : Q) : bool := negb (Qle_bool b a).

(** The four binarised images, in the order of [preprocessed_images]. *)
Inductive preprocess := Otsu | OtsuInv | Clahe | ClaheInv.

Definition preprocessed_images : list preprocess := [Otsu; OtsuInv; Clahe; ClaheInv].

Definition psm_modes : list Z := [8; 11].

(** The [(img, preprocess_name) x psm] combinations, in loop order. *)
Definition combinations : list (preprocess * Z) :=
  flat_map (fun p => map (fun m => (p, m)) psm_modes) preprocessed_images.

Definition OCR_CONFIDENCE_CUTOFF : Q := 30.

(** The dictionary appended to [results]. *)
Record ocr_result := mk_ocr_result {
  text : string;
  confidence : Q;
  psm : Z;
  preprocess_name : preprocess
}.

(** [_clean_sign_number(text)] *)
Definition clean_sign_number (t : string) : string :=
  let t := strip_dots t in
  if any_digit t then
    let parts := split_on "."%char t in
    if (List.length parts <=? 2)%nat then t else EmptyString
  else EmptyString.

Definition is_empty (s : string) : bool :=
  match s with EmptyString => true | _ => false end.

(** [sum(confidences) / len(confidences) if confidences else 0] *)
Definition average (l : list Q) : Q :=
  match l with
  | [] => 0%Q
  | _ => (fold_right Qplus 0 l / inject_Z (Z.of_nat (List.length l)))%Q
  end.

Section Ensemble.

(** The OCR engine, for the crop of a box under a preprocessing and a
    page-segmentation mode. [image_to_string] answers [None] when the call
    raises, and otherwise the raw text; [image_to_data] answers [None]
    when the call (or a [float(c)] conversion) raises, and otherwise the
    list [confidences] the code keeps from [data['conf']]. *)
Variable image_to_string : rect -> preprocess -> Z -> option string.
Variable image_to_data : rect -> preprocess -> Z -> option (list Q).

(** The body of the [try] block for one combination: [Some r] when [r] is
    appended to [results], [None] when nothing is appended (rejected
    reading, or an exception caught by [except Exception]). *)
Definition try_combination (b : rect) (pre : preprocess) (m : Z) : option ocr_result :=
  match image_to_string b pre m with
  | None => None
  | Some raw =>
      let t := py_strip raw in
      if negb (is_empty t) then
        let t := clean_sign_number t in
        if negb (is_empty t) && (3 <=? String.length t)%nat then
          match image_to_data b pre m with
          | None => None
          | Some confidences =>
              let avg_conf := average confidences in
              if Qlt_b OCR_CONFIDENCE_CUTOFF avg_conf then
                Some (mk_ocr_result t avg_conf m pre)
              else None
          end
        else None
      else None
  end.

Definition option_to_list {A} (o : option A) : list A :=
  match o with Some a => [a] | None => [] end.

(** The list [results] after both loops. *)
Definition results (b : rect) : list ocr_result :=
  flat_map (fun '(pre, m) => option_to_list (try_combination b pre m)) combinations.

(** [(x['confidence'], len(x['text'])) > (best['confidence'], len(best['text']))] *)
Definition key_gt (a best : ocr_result) : bool :=
  Qlt_b (confidence best) (confidence a)
  || (Qeq_bool (confidence a) (confidence best)
      && (String.length (text best) <? String.length (text a))%nat).

(** [max(results, key=...)]: the first element with the greatest key. *)
Fixpoint max_by_key (best : ocr_result) (l : list ocr_result) : ocr_result :=
  match l with
  | [] => best
  | r :: l' => max_by_key (if key_gt r best then r else best) l'
  end.

(** [extract_sign_number(image, bbox)] *)
Definition extract_sign_number (b : rect) : option ocr_result :=
  match results b with
  | [] => None
  | r :: rs => Some (max_by_key r rs)
  end.

(** The acceptance rule as the specification words it: the reading, after
    trimming leading and trailing periods, contains a digit, has at most
    one period, is at least 3 characters long, and its averaged confidence
    exceeds 30 (with neither engine call raising). *)
Definition claimed_survivor (b : rect) (pre : preprocess) (m : Z) : option ocr_result :=
  match image_to_string b pre m, image_to_data b pre m with
  | Some raw, Some confidences =>
      let t := strip_dots (py_strip raw) in
      let avg_conf := average confidences in
      if any_digit t && (count_char "."%char t <=? 1)%nat
         && (3 <=? String.length t)%nat && Qlt_b 30 avg_conf
      then Some (mk_ocr_result t avg_conf m pre)
      else None
  | _, _ => None
  end.

(** [SignDetection] *)
Record sign_detection := mk_detection {
  sign_number : string;
  x_percentage : Q;
  y_percentage : Q;
  width_percentage : Q;
  height_percentage : Q;
  det_confidence : Q
}.

Definition detection_of (width height : Z) (b : rect) (r : ocr_result) : sign_detection :=
  let '(x, y, w, h) := b in
  let x_center := (inject_Z x + inject_Z w / 2)%Q in
  let y_center := (inject_Z y + inject_Z h / 2)%Q in
  mk_detection (text r)
    (x_center / inject_Z width * 100)%Q
    (y_center / inject_Z height * 100)%Q
    (inject_Z w / inject_Z width * 100)%Q
    (inject_Z h / inject_Z height * 100)%Q
    (confidence r).

(** The loop of [process_image] over the detected [boxes]. *)
Fixpoint process_boxes (width height : Z) (boxes : list rect) : list sign_detection :=
  match boxes with
  | [] => []
  | b :: bs =>
      match extract_sign_number b with
      | Some r => detection_of width height b r :: process_boxes width height bs
      | None => process_boxes width height bs
      end
  end.

End Ensemble.

End OcrEnsemble.

(* ================================================================== *)
(** ** Embedded-text extractor ([extract_signs_from_page]) *)
(* ================================================================== *)

Module EmbeddedText.

Import PyStr.

Definition HOTSPOT_EXPANSION : Q := 3 # 10.

(** The maximal run of digits at the front of [s], and what follows it. *)
Fixpoint span_digits (s : string) : string * string :=
  match s with
  | String c s' =>
      if is_digit c then let '(ds, r) := span_digits s' in (String c ds, r)
      else (EmptyString, s)
  | EmptyString => (EmptyString, EmptyString)
  end.

(** Python's [$] without [re.MULTILINE]: the end of the string, or just
    before a newline that ends it. *)
Definition at_end (s : string) : bool :=
  match s with
  | EmptyString => true
  | String c EmptyString => Ascii.eqb c "010"%char
  | _ => false
  end.

(** [SIGN_PATTERN.match(t)] with [SIGN_PATTERN = ^(\d{4}(?:\.\d+)?)$]:
    [Some g] when the pattern matches, with [g = match.group(1)]. Once the
    optional group has taken its dot, [\d+] must reach the anchor, since
    backtracking to fewer digits leaves a digit in front of [$]. *)
Definition sign_match (t : string) : option string :=
  match t with
  | String d1 (String d2 (String d3 (String d4 rest))) =>
      if is_digit d1 && is_digit d2 && is_digit d3 && is_digit d4 then
        let four := String d1 (String d2 (String d3 (String d4 EmptyString))) in
        match rest with
        | String c r =>
            if Ascii.eqb c "."%char then
              let '(ds, r') := span_digits r in
              if negb (OcrEnsemble.is_empty ds) && at_end r' then
                Some (four ++ String "."%char ds)%string
              else if at_end rest then Some four else None
            else if at_end rest then Some four else None
        | EmptyString => Some four
        end
      else None
  | _ => None
  end.

(** The label shape of the specification, as a full match:
    four digits, optionally a dot and one or more digits. *)
Definition all_digits (s : string) : bool :=
  negb (OcrEnsemble.is_empty s) && OcrEnsemble.is_empty (snd (span_digits s)).

Definition label_pattern (t : string) : bool :=
  match t with
  | String d1 (String d2 (String d3 (String d4 rest))) =>
      is_digit d1 && is_digit d2 && is_digit d3 && is_digit d4 &&
      match rest with
      | EmptyString => true
      | String c r => Ascii.eqb c "."%char && all_digits r
      end
  | _ => false
  end.

(** [SignHotspot] *)
Record sign_hotspot := mk_hotspot {
  sign_number : string;
  page : Z;
  text_x : Q;
  text_y : Q;
  text_width : Q;
  text_height : Q;
  hotspot_x_percentage : Q;
  hotspot_y_percentage : Q;
  hotspot_width_percentage : Q;
  hotspot_height_percentage : Q;
  confidence : string
}.

(** The expansion and percentage conversion shared by both walks. *)
Definition make_hotspot (sn : string) (page_num : Z) (tx ty tw th : Q)
    (page_width page_height : Q) : sign_hotspot :=
  let expansion_x := (tw * HOTSPOT_EXPANSION)%Q in
  let expansion_y := (th * HOTSPOT_EXPANSION)%Q in
  let hotspot_x := (tx - expansion_x)%Q in
  let hotspot_y := (ty - expansion_y)%Q in
  let hotspot_width := (tw + 2 * expansion_x)%Q in
  let hotspot_height := (th + 2 * expansion_y)%Q in
  mk_hotspot sn page_num tx ty tw th
    (hotspot_x / page_width * 100)%Q
    (hotspot_y / page_height * 100)%Q
    (hotspot_width / page_width * 100)%Q
    (hotspot_height / page_height * 100)%Q
    "embedded".

(** A span of [page.get_text("dict")]: its text and its [bbox]. *)
Record span := mk_span { span_text : string; span_bbox : Q * Q * Q * Q }.

(** A block of [page.get_text("dict")]: its [type] and its lines, each
    line given by its spans. *)
Record dict_block := mk_dict_block { block_type : Z; block_lines : list (list span) }.

(** A tuple [(x0, y0, x1, y1, text, block_no, block_type)] of
    [page.get_text("blocks")]. *)
Definition text_block : Type := (Q * Q * Q * Q * string * Z * Z)%type.

(** What [extract_signs_from_page] reads from a page. *)
Record page_layer := mk_page_layer {
  page_width : Q;
  page_height : Q;
  dict_blocks : list dict_block;
  text_blocks : list text_block
}.

(** One span of the structured walk. *)
Definition span_signs (p : page_layer) (page_num : Z) (sp : span) : list sign_hotspot :=
  let t := py_strip (span_text sp) in
  match sign_match t with
  | Some sn =>
      let '(b0, b1, b2, b3) := span_bbox sp in
      [make_hotspot sn page_num b0 b1 (b2 - b0)%Q (b3 - b1)%Q
         (page_width p) (page_height p)]
  | None => []
  end.

(** The structured walk (blocks -> lines -> spans) over text blocks. *)
Definition structured_walk (p : page_layer) (page_num : Z) : list sign_hotspot :=
  flat_map (fun blk =>
      if Z.eqb (block_type blk) 0 then
        flat_map (fun ln => flat_map (span_signs p page_num) ln) (block_lines blk)
      else [])
    (dict_blocks p).

(** One line of a fallback block, against the signs found so far. *)
Definition fallback_line (p : page_layer) (page_num : Z) (x0 y0 x1 y1 : Q)
    (nlines : nat) (signs : list sign_hotspot) (ln : string) : list sign_hotspot :=
  let ln := py_strip ln in
  match sign_match ln with
  | Some sn =>
      if existsb (fun s => String.eqb (sign_number s) sn) signs then signs
      else
        let tw := (x1 - x0)%Q in
        let th := ((y1 - y0) / inject_Z (Z.of_nat nlines))%Q in
        signs ++ [make_hotspot sn page_num x0 y0 tw th (page_width p) (page_height p)]
  | None => signs
  end.

(** One block of the fallback walk. *)
Definition fallback_block (p : page_layer) (page_num : Z)
    (signs : list sign_hotspot) (blk : text_block) : list sign_hotspot :=
  let '(x0, y0, x1, y1, txt, _, _) := blk in
  let lines := split_on "010"%char (py_strip txt) in
  fold_left (fallback_line p page_num x0 y0 x1 y1 (List.length lines)) lines signs.

(** [extract_signs_from_page(page, page_num)] *)
Definition extract_signs_from_page (p : page_layer) (page_num : Z) : list sign_hotspot :=
  fold_left (fallback_block p page_num) (text_blocks p) (structured_walk p page_num).

(** The fallback rule as the claim words it: a fallback find is kept when
    its label was not captured by the structured walk. *)
Definition claimed_extract_signs_from_page (p : page_layer) (page_num : Z) : list sign_hotspot :=
  let S := structured_walk p page_num in
  S ++ flat_map (fun blk =>
         let '(x0, y0, x1, y1, txt, _, _) := blk in
         let lines := split_on "010"%char (py_strip txt) in
         flat_map (fun ln =>
             match sign_match (py_strip ln) with
             | Some sn =>
                 if existsb (fun s => String.eqb (sign_number s) sn) S then []
                 else [make_hotspot sn page_num x0 y0 (x1 - x0)%Q
                         ((y1 - y0) / inject_Z (Z.of_nat (List.length lines)))%Q
                         (page_width p) (page_height p)]
             | None => []
             end) lines)
       (text_blocks p).

(** The amended fallback rule, in the specification's terms. The
    candidates of the fallback walk: one per line, in block and line
    order, whose trimmed content matches the label pattern, with the
    geometry of its block. *)
Definition fallback_candidates (p : page_layer) (page_num : Z) : list sign_hotspot :=
  flat_map (fun blk =>
      let '(x0, y0, x1, y1, txt, _, _) := blk in
      let lines := split_on "010"%char (py_strip txt) in
      flat_map (fun ln =>
          match sign_match (py_strip ln) with
          | Some sn =>
              [make_hotspot sn page_num x0 y0 (x1 - x0)%Q
                 ((y1 - y0) / inject_Z (Z.of_nat (List.length lines)))%Q
                 (page_width p) (page_height p)]
          | None => []
          end) lines)
    (text_blocks p).

(** First found wins: a candidate is kept if and only if its label is not
    in [seen] (the labels of the structured walk) and is the label of no
    earlier candidate. *)
Fixpoint first_new (seen : list string) (cands : list sign_hotspot) : list sign_hotspot :=
  match cands with
  | [] => []
  | c :: cs =>
      (if existsb (String.eqb (sign_number c)) seen then [] else [c])
      ++ first_new (seen ++ [sign_number c]) cs
  end.

End EmbeddedText.

(* ================================================================== *)
(** ** Proximity grouper ([group_nearby_signs]) *)
(* ================================================================== *)

Module Grouper.

Import PyStr.

(** The fields of a sign dictionary the grouper reads or writes:
    ["sign_number"], ["hotspot_bbox"]["x_percentage"],
    ["hotspot_bbox"]["y_percentage"], ["group"] and ["group_size"] (absent
    keys are [None]). The other keys are neither read nor written. *)
Record gsign := mk_gsign {
  g_sign_number : string;
  g_x : Q;
  g_y : Q;
  group : option string;
  group_size : option Z
}.

(** [str(n)] for a natural number. *)
Fixpoint string_of_nat_aux (fuel n : nat) (acc : string) : string :=
  match fuel with
  | O => acc
  | S f =>
      let acc' := String (ascii_of_nat (48 + n mod 10)) acc in
      if (n <? 10)%nat then acc' else string_of_nat_aux f (n / 10) acc'
  end.

Definition string_of_nat (n : nat) : string := string_of_nat_aux (S n) n EmptyString.

(** [f"{base_number} series ({len(group)} signs)"] *)
Definition group_label (base : string) (n : nat) : string :=
  (base ++ " series (" ++ string_of_nat n ++ " signs)")%string.

Fixpoint mem (k : nat) (l : list nat) : bool :=
  match l with [] => false | a :: l' => Nat.eqb a k || mem k l' end.

(** The proximity test between the seed [sign1] and a candidate [sign2]. *)
Definition is_close (t : Q) (sign1 sign2 : gsign) : bool :=
  let dx := Qabs (g_x sign1 - g_x sign2) in
  let dy := Qabs (g_y sign1 - g_y sign2) in
  (OcrEnsemble.Qlt_b dx t && OcrEnsemble.Qlt_b dy (t * 3))
  || (OcrEnsemble.Qlt_b dy t && OcrEnsemble.Qlt_b dx (t * 3)).

(** The inner loop [for j, sign2 in enumerate(signs)] for the seed [i]:
    [rest] is the part of [signs] from index [j] on; the group and the set
    [used] are threaded through. *)
Fixpoint scan (t : Q) (i : nat) (sign1 : gsign) (base : string)
    (j : nat) (rest : list gsign) (grp used : list nat) : list nat * list nat :=
  match rest with
  | [] => (grp, used)
  | sign2 :: rest' =>
      if negb (Nat.eqb j i) && negb (mem j used)
         && String.prefix (base ++ ".") (g_sign_number sign2)
         && is_close t sign1 sign2
      then scan t i sign1 base (S j) rest' (grp ++ [j]) (used ++ [j])
      else scan t i sign1 base (S j) rest' grp used
  end.

(** [sign["group"] = group_label; sign["group_size"] = len(group)] *)
Definition set_group (lab : string) (n : Z) (s : gsign) : gsign :=
  mk_gsign (g_sign_number s) (g_x s) (g_y s) (Some lab) (Some n).

(** Apply [f] to the element at index [k] (the dictionary [signs[k]]). *)
Fixpoint update_nth {A} (k : nat) (f : A -> A) (l : list A) : list A :=
  match l, k with
  | [], _ => []
  | a :: l', O => f a :: l'
  | a :: l', S k' => a :: update_nth k' f l'
  end.

(** A write to the dictionary at an index. *)
Definition write (w : nat * string * Z) (signs : list gsign) : list gsign :=
  let '(k, lab, n) := w in update_nth k (set_group lab n) signs.

Definition apply_writes (ws : list (nat * string * Z)) (signs : list gsign) : list gsign :=
  fold_left (fun l w => write w l) ws signs.

(** The writes of [for sign in group: ...]: the group holds the
    dictionaries [signs[k]] themselves, so each write lands in [signs]. *)
Definition group_writes (lab : string) (grp : list nat) : list (nat * string * Z) :=
  map (fun k => (k, lab, Z.of_nat (List.length grp))) grp.

(** One iteration of the outer loop [for i, sign1 in enumerate(signs)]. *)
Definition step (t : Q) (st : list gsign * list nat) (i : nat) : list gsign * list nat :=
  let '(signs, used) := st in
  if mem i used then st
  else match nth_error signs i with
       | None => st
       | Some sign1 =>
           let used := used ++ [i] in
           let base := hd EmptyString (split_on "."%char (g_sign_number sign1)) in
           let is_series := contains_char "."%char (g_sign_number sign1) in
           let '(grp, used) :=
             if is_series then scan t i sign1 base 0 signs [i] used
             else ([i], used) in
           if (1 <? List.length grp)%nat then
             (apply_writes (group_writes (group_label base (List.length grp)) grp) signs, used)
           else (signs, used)
       end.

(** The body of [group_nearby_signs] for one page. *)
Definition group_page (t : Q) (signs : list gsign) : list gsign :=
  if (List.length signs <? 2)%nat then signs
  else fst (fold_left (step t) (seq 0 (List.length signs)) (signs, [])).

(** [group_nearby_signs(results, distance_threshold)] over the pages'
    sign lists. *)
Definition group_nearby_signs (t : Q) (pages : list (list gsign)) : list (list gsign) :=
  map (group_page t) pages.

Definition default_threshold : Q := 2.

(** The join condition as the claim words it: the candidate shares the
    seed's integer base (the part before the first dot). *)
Definition claimed_joins (t : Q) (sign1 sign2 : gsign) : bool :=
  String.eqb (hd EmptyString (split_on "."%char (g_sign_number sign1)))
             (hd EmptyString (split_on "."%char (g_sign_number sign2)))
  && is_close t sign1 sign2.

End Grouper.

(* ================================================================== *)
(** ** Python builtins shared by the page loops *)
(* ================================================================== *)

Module PyBuiltins.

(** [enumerate(l, k)] *)
Fixpoint enumerate {A} (k : Z) (l : list A) : list (Z * A) :=
  match l with
  | [] => []
  | a :: l' => (k, a) :: enumerate (k + 1) l'
  end.

End PyBuiltins.

(* ================================================================== *)
(** ** Colour-based pipeline: box filter and page loop
       ([detect_color_boxes], [process_image], [process_pdf]) *)
(* ================================================================== *)

Module ColorBoxes.

Import ColorGeometry OcrEnsemble PyBuiltins.

Definition MIN_BOX_WIDTH_PERCENT : Q := 3 # 10.
Definition MAX_BOX_WIDTH_PERCENT : Q := 5.
Definition MIN_BOX_HEIGHT_PERCENT : Q := 1 # 5.
Definition MAX_BOX_HEIGHT_PERCENT : Q := 3.
Definition MIN_ASPECT_RATIO : Q := 1 # 2.
Definition MAX_ASPECT_RATIO : Q := 3.

(** The size and aspect-ratio test of [detect_color_boxes] on the
    bounding rectangle [(x, y, w, h)] of a contour, in an image of the
    given [width] and [height]. *)
Definition box_is_valid (width height : Z) (b : rect) : bool :=
  let '(x, y, w, h) := b in
  let width_percent := (inject_Z w / inject_Z width * 100)%Q in
  let height_percent := (inject_Z h / inject_Z height * 100)%Q in
  if Qle_bool MIN_BOX_WIDTH_PERCENT width_percent
     && Qle_bool width_percent MAX_BOX_WIDTH_PERCENT
     && Qle_bool MIN_BOX_HEIGHT_PERCENT height_percent
     && Qle_bool height_percent MAX_BOX_HEIGHT_PERCENT
  then
    let aspect_ratio := if 0 <? h then (inject_Z w / inject_Z h)%Q else 0%Q in
    Qle_bool MIN_ASPECT_RATIO aspect_ratio && Qle_bool aspect_ratio MAX_ASPECT_RATIO
  else false.

(** [detect_color_boxes(image)] from the bounding rectangles
    [cv2.boundingRect(contour)] of the external contours of the cleaned
    colour mask, in [contours] order: the size filter, then the stacked-box
    split of each valid box. *)
Definition detect_color_boxes (width height : Z) (contour_rects : list rect) : list rect :=
  let valid_boxes := filter (box_is_valid width height) contour_rects in
  flat_map (fun box => detect_stacked_boxes box STANDARD_SIGN_HEIGHT_PIXELS) valid_boxes.

Section Pages.

(** The OCR engine on the image of page [page_num] (see [Ensemble]), and
    Python's [round(v, 2)] on a float. *)
Variable ocr_string : Z -> rect -> preprocess -> Z -> option string.
Variable ocr_data : Z -> rect -> preprocess -> Z -> option (list Q).
Variable round2 : Q -> Q.

(** What the pipeline reads of a page image: [image.shape[1]],
    [image.shape[0]] and the bounding rectangles of its contours. *)
Record page_image := mk_page_image {
  image_width : Z;
  image_height : Z;
  contour_rects : list rect
}.

(** [process_image(image, page_num)]: the detections and the boxes. *)
Definition process_image (img : page_image) (page_num : Z) : list sign_detection * list rect :=
  let boxes := detect_color_boxes (image_width img) (image_height img) (contour_rects img) in
  (process_boxes (ocr_string page_num) (ocr_data page_num)
     (image_width img) (image_height img) boxes, boxes).

(** [SignDetection.to_dict()] *)
Record detection_dict := mk_detection_dict {
  dd_sign_number : string;
  dd_x_percentage : Q;
  dd_y_percentage : Q;
  dd_width_percentage : Q;
  dd_height_percentage : Q;
  dd_confidence : Q
}.

Definition to_dict (d : sign_detection) : detection_dict :=
  mk_detection_dict (sign_number d)
    (round2 (x_percentage d)) (round2 (y_percentage d))
    (round2 (width_percentage d)) (round2 (height_percentage d))
    (round2 (det_confidence d)).

(** The entry [page_results] of a page and the dictionary [all_results]
    of [process_pdf]. *)
Record color_page_result := mk_color_page_result {
  cp_page : Z;
  cp_signs_detected : Z;
  cp_signs : list detection_dict
}.

Record color_results := mk_color_results {
  c_total_signs_detected : Z;
  c_pages : list color_page_result
}.

(** One iteration of [for page_num, image in enumerate(images, 1)]. *)
Definition add_image (acc : color_results) (pi : Z * page_image) : color_results :=
  let '(page_num, image) := pi in
  let '(detections, boxes) := process_image image page_num in
  mk_color_results
    (c_total_signs_detected acc + Z.of_nat (List.length detections))
    (c_pages acc ++ [mk_color_page_result page_num (Z.of_nat (List.length detections))
                       (map to_dict detections)]).

(** [process_pdf(pdf_path)] on the converted page images (the files it
    writes are not modelled). *)
Definition process_pdf (images : list page_image) : color_results :=
  fold_left add_image (enumerate 1 images) (mk_color_results 0 []).

End Pages.

End ColorBoxes.

(* ================================================================== *)
(** ** The ATL06 extractor ([extract_text_from_page] of extract_atl06.py) *)
(* ================================================================== *)

Module Atl06.

Import PyStr EmbeddedText.

(** [SIGN_PATTERN.match(text)] with [SIGN_PATTERN = ^(\d{4})(?:\.\d+)?$],
    as a test. The optional group is tried first; once it has taken its
    dot, [\d+] must reach the anchor; otherwise [$] is tried right after
    the four digits. *)
Definition atl06_pattern_match (t : string) : bool :=
  match t with
  | String d1 (String d2 (String d3 (String d4 rest))) =>
      is_digit d1 && is_digit d2 && is_digit d3 && is_digit d4 &&
      (match rest with
       | String c r =>
           Ascii.eqb c "."%char &&
           (let '(ds, r') := span_digits r in negb (OcrEnsemble.is_empty ds) && at_end r')
       | EmptyString => false
       end
       || at_end rest)
  | _ => false
  end.

(** The dictionary [sign_data]: label, [text_bbox] as
    [(x, y, width, height)], [hotspot_bbox] as the four percentages,
    confidence and page. *)
Record atl06_sign := mk_atl06_sign {
  a_sign_number : string;
  a_text_bbox : Q * Q * Q * Q;
  a_hotspot_bbox : Q * Q * Q * Q;
  a_confidence : string;
  a_page : Z
}.

Section Rounding.

(** Python's [round(v, 2)] on a float. *)
Variable round2 : Q -> Q.

(** One span; [page_number] is [page.number], counted from 0. *)
Definition atl06_span (p : page_layer) (page_number : Z) (sp : span) : list atl06_sign :=
  let text := py_strip (span_text sp) in
  if atl06_pattern_match text && negb (String.eqb text "0000") then
    let '(b0, b1, b2, b3) := span_bbox sp in
    [mk_atl06_sign text (b0, b1, (b2 - b0)%Q, (b3 - b1)%Q)
       (round2 (b0 / page_width p * 100)%Q, round2 (b1 / page_height p * 100)%Q,
        round2 ((b2 - b0) / page_width p * 100)%Q, round2 ((b3 - b1) / page_height p * 100)%Q)
       "embedded" (page_number + 1)]
  else [].

(** [extract_text_from_page(page)] *)
Definition extract_text_from_page (p : page_layer) (page_number : Z) : list atl06_sign :=
  flat_map (fun blk =>
      if Z.eqb (block_type blk) 0 then
        flat_map (fun ln => flat_map (atl06_span p page_number) ln) (block_lines blk)
      else [])
    (dict_blocks p).

End Rounding.

End Atl06.

(* ================================================================== *)
(** ** Embedded-text extractor over a document ([extract_signs_from_pdf]) *)
(* ================================================================== *)

Module PdfResults.

Import EmbeddedText Grouper PyBuiltins.

Section Rounding.

(** Python's [round(v, 2)] on a float. *)
Variable round2 : Q -> Q.

(** The entry [page_results] of a page (its ["signs"] as the grouper sees
    them) and the dictionary [all_results]; the keys that neither
    [extract_signs_from_pdf] nor [group_nearby_signs] reads back are not
    modelled. *)
Record page_result := mk_page_result {
  pr_page : Z;
  pr_signs_detected : Z;
  pr_signs : list gsign
}.

Record pdf_results := mk_pdf_results {
  total_signs_detected : Z;
  pages : list page_result
}.

(** [sign.to_dict()] as read by the grouper: the label and the rounded
    hotspot position, with no group keys yet. *)
Definition sign_entry (s : sign_hotspot) : gsign :=
  mk_gsign (sign_number s) (round2 (hotspot_x_percentage s))
    (round2 (hotspot_y_percentage s)) None None.

(** One iteration of [for page_num, page in enumerate(doc, 1)]. *)
Definition add_page (acc : pdf_results) (pp : Z * page_layer) : pdf_results :=
  let '(page_num, p) := pp in
  let page_signs := extract_signs_from_page p page_num in
  mk_pdf_results
    (total_signs_detected acc + Z.of_nat (List.length page_signs))
    (pages acc ++ [mk_page_result page_num (Z.of_nat (List.length page_signs))
                     (map sign_entry page_signs)]).

(** [group_nearby_signs(results, t)] on the results dictionary. *)
Definition group_results (t : Q) (r : pdf_results) : pdf_results :=
  mk_pdf_results (total_signs_detected r)
    (map (fun pr => mk_page_result (pr_page pr) (pr_signs_detected pr)
                      (group_page t (pr_signs pr))) (pages r)).

(** [extract_signs_from_pdf(pdf_path)] on the document's pages. *)
Definition extract_signs_from_pdf (doc : list page_layer) : pdf_results :=
  group_results default_threshold
    (fold_left add_page (enumerate 1 doc) (mk_pdf_results 0 [])).

End Rounding.

End PdfResults.

(* ================================================================== *)
(** * Properties *)
(* ================================================================== *)

(** ** Stacked-box splitter and crop region *)

Module SplitterProofs.

Import ColorGeometry.

Lemma py_round_div_exact (k s : Z) : 0 < s -> py_round_div (k * s) s = k.
Proof.
  intros Hs. unfold py_round_div.
  rewrite Z.div_mul by lia. rewrite Z.mod_mul by lia.
  replace (2 * 0 <? s) with true by (symmetry; apply Z.ltb_lt; lia).
  reflexivity.
Qed.

Lemma length_range (n : Z) : List.length (range n) = Z.to_nat n.
Proof. unfold range. now rewrite length_map, length_seq. Qed.

(** C4: a box no taller than 1.5 standard heights is returned unchanged;
    a box of exactly [k >= 2] standard heights is split into [k] boxes of
    height [h / k], with the input's [x] and width, the [i]-th starting at
    [y + i * (h / k)], so that they tile the input height [h]. *)
Theorem stacked_split_exact (x y w h s : Z) :
  0 < s ->
  (2 * h <= 3 * s -> detect_stacked_boxes (x, y, w, h) s = [(x, y, w, h)]) /\
  (forall k, 2 <= k -> h = k * s ->
     detect_stacked_boxes (x, y, w, h) s
       = map (fun i => (x, y + i * (h / k), w, h / k)) (range k)
     /\ Z.of_nat (List.length (detect_stacked_boxes (x, y, w, h) s)) = k
     /\ (h / k) * k = h).
Proof.
  intros Hs. split.
  - intros Hle. unfold detect_stacked_boxes.
    replace (3 * s <? 2 * h) with false by (symmetry; apply Z.ltb_ge; lia).
    reflexivity.
  - intros k Hk Hh. subst h.
    assert (Hq : k * s / k = s) by (rewrite Z.mul_comm; apply Z.div_mul; lia).
    assert (Heq : detect_stacked_boxes (x, y, w, k * s) s
                  = map (fun i => (x, y + i * (k * s / k), w, k * s / k)) (range k)).
    { unfold detect_stacked_boxes.
      replace (3 * s <? 2 * (k * s)) with true by (symmetry; apply Z.ltb_lt; nia).
      rewrite py_round_div_exact by lia.
      replace (1 <? k) with true by (symmetry; apply Z.ltb_lt; lia).
      rewrite Hq. apply map_ext. intros i. f_equal. f_equal. f_equal.
      + replace (y * k + i * (k * s)) with ((y + i * s) * k) by ring.
        apply Z.quot_mul. lia.
      + rewrite Z.mul_comm. apply Z.quot_mul. lia. }
    split; [exact Heq|]. split.
    + rewrite Heq, length_map, length_range. lia.
    + rewrite Hq. lia.
Qed.

(** C10: with [s >= 1] and [h > 1.5 s], [round(h / s)] is at least 2, so
    the splitter never takes its [stack_count = 1] fall-through and returns
    at least two boxes, never the input box alone. *)
Theorem stack_count_at_least_two (x y w h s : Z) :
  1 <= s -> 3 * s < 2 * h ->
  2 <= py_round_div h s
  /\ (2 <= List.length (detect_stacked_boxes (x, y, w, h) s))%nat
  /\ detect_stacked_boxes (x, y, w, h) s <> [(x, y, w, h)].
Proof.
  intros Hs Hh.
  assert (Hk : 2 <= py_round_div h s).
  { unfold py_round_div.
    pose proof (Z.div_mod h s ltac:(lia)) as Hdm.
    pose proof (Z.mod_pos_bound h s ltac:(lia)) as Hr.
    set (q := h / s) in *. set (r := h mod s) in *.
    assert (Hq1 : 1 <= q) by nia.
    destruct (2 * r <? s) eqn:E1; [apply Z.ltb_lt in E1; nia|].
    destruct (s <? 2 * r) eqn:E2; [lia|].
    apply Z.ltb_ge in E1. apply Z.ltb_ge in E2.
    destruct (Z.even q); nia. }
  assert (Hlen : (2 <= List.length (detect_stacked_boxes (x, y, w, h) s))%nat).
  { unfold detect_stacked_boxes.
    replace (3 * s <? 2 * h) with true by (symmetry; apply Z.ltb_lt; lia).
    replace (1 <? py_round_div h s) with true by (symmetry; apply Z.ltb_lt; lia).
    rewrite length_map, length_range. lia. }
  split; [exact Hk|]. split; [exact Hlen|].
  intros Heq. rewrite Heq in Hlen. simpl in Hlen. lia.
Qed.

(** C5 (as stated): the crop is not the box grown by 50 pixels above and
    20 on each side with nothing below: for a 20x20 box at (100, 100) on a
    1000x1000 page it also takes 10 pixels below the box. *)
Lemma crop_region_not_claimed :
  crop_region 1000 1000 (100, 100, 20, 20) = (80, 50, 140, 130)
  /\ claimed_crop_region 1000 1000 (100, 100, 20, 20) = (80, 50, 140, 120)
  /\ crop_region 1000 1000 (100, 100, 20, 20)
     <> claimed_crop_region 1000 1000 (100, 100, 20, 20).
Proof. split; [reflexivity|]. split; [reflexivity|]. vm_compute. congruence. Qed.

(** C5 (amended): for a box inside a [W x H] page, the crop reaches
    exactly 20 pixels left and right of the box, 50 pixels above it and 10
    pixels below it, each cut short at the page border. *)
Theorem crop_region_padding (W H x y w h : Z) :
  0 <= x -> 0 <= y -> 0 <= w -> 0 <= h -> x + w <= W -> y + h <= H ->
  let '(x_start, y_start, x_end, y_end) := crop_region W H (x, y, w, h) in
  x - x_start = Z.min 20 x
  /\ x_end - (x + w) = Z.min 20 (W - (x + w))
  /\ y - y_start = Z.min 50 y
  /\ y_end - (y + h) = Z.min 10 (H - (y + h)).
Proof. intros. simpl. lia. Qed.

Lemma stacked_split_exact_witness :
  (0 < 40 /\ 2 <= 3 /\ 120 = 3 * 40)
  /\ detect_stacked_boxes (5, 7, 30, 120) 40
     = map (fun i => (5, 7 + i * (120 / 3), 30, 120 / 3)) (range 3).
Proof.
  split; [lia|].
  exact (proj1 (proj2 (stacked_split_exact 5 7 30 120 40 ltac:(lia)) 3 ltac:(lia) ltac:(lia))).
Defined.

Lemma stack_count_at_least_two_witness :
  (1 <= 40 /\ 3 * 40 < 2 * 61) /\ 2 <= py_round_div 61 40.
Proof.
  split; [lia|].
  exact (proj1 (stack_count_at_least_two 5 7 30 61 40 ltac:(lia) ltac:(lia))).
Defined.

Lemma crop_region_padding_witness :
  (0 <= 100 /\ 0 <= 30 /\ 0 <= 20 /\ 0 <= 20 /\ 100 + 20 <= 1000 /\ 30 + 20 <= 800)
  /\ let '(x_start, y_start, x_end, y_end) := crop_region 1000 800 (100, 30, 20, 20) in
     100 - x_start = Z.min 20 100
     /\ x_end - (100 + 20) = Z.min 20 (1000 - (100 + 20))
     /\ 30 - y_start = Z.min 50 30
     /\ y_end - (30 + 20) = Z.min 10 (800 - (30 + 20)).
Proof.
  split; [lia|].
  exact (crop_region_padding 1000 800 100 30 20 20
           ltac:(lia) ltac:(lia) ltac:(lia) ltac:(lia) ltac:(lia) ltac:(lia)).
Defined.

End SplitterProofs.

(** ** OCR ensemble *)

Module OcrProofs.

Import ColorGeometry PyStr OcrEnsemble.

Local Open Scope Q_scope.

Lemma Qlt_b_true (a b : Q) : Qlt_b a b = true <-> a < b.
Proof.
  unfold Qlt_b. rewrite negb_true_iff. split.
  - intros H. apply Qnot_le_lt. intros Hle. apply Qle_bool_iff in Hle. congruence.
  - intros H. destruct (Qle_bool b a) eqn:E; [|reflexivity].
    apply Qle_bool_iff in E. exfalso. apply (Qlt_not_le a b); assumption.
Qed.

Lemma Qlt_b_false (a b : Q) : Qlt_b a b = false <-> b <= a.
Proof.
  unfold Qlt_b. rewrite negb_false_iff. apply Qle_bool_iff.
Qed.

Lemma split_on_length (c : ascii) (s : string) :
  List.length (split_on c s) = S (count_char c s).
Proof.
  induction s as [|d s IH]; [reflexivity|]. simpl.
  destruct (Ascii.eqb d c) eqn:E.
  - simpl. rewrite IH. reflexivity.
  - destruct (split_on c s) as [|w ws]; simpl in *; [discriminate|]. lia.
Qed.

(** The acceptance test of the code is the one of the specification. *)
Lemma try_combination_claimed img2str img2data (b : rect) (pre : preprocess) (m : Z) :
  try_combination img2str img2data b pre m = claimed_survivor img2str img2data b pre m.
Proof.
  unfold try_combination, claimed_survivor.
  destruct (img2str b pre m) as [raw|]; [|reflexivity].
  destruct (py_strip raw) as [|c t] eqn:Hs.
  - simpl. destruct (img2data b pre m); reflexivity.
  - cbv beta iota zeta. unfold clean_sign_number.
    remember (strip_dots (String c t)) as u.
    simpl negb. cbv iota beta.
    destruct (any_digit u) eqn:Hd.
    + rewrite split_on_length.
      destruct (S (count_char "."%char u) <=? 2)%nat eqn:Hc;
        destruct (count_char "."%char u <=? 1)%nat eqn:Hc'.
      * destruct (3 <=? String.length u)%nat eqn:Hl.
        -- assert (Hne : is_empty u = false) by (destruct u; simpl in *; [discriminate|reflexivity]).
           rewrite Hne. simpl. destruct (img2data b pre m); reflexivity.
        -- rewrite andb_false_r. simpl andb.
           destruct (img2data b pre m); reflexivity.
      * apply Nat.leb_le in Hc. apply Nat.leb_gt in Hc'. lia.
      * apply Nat.leb_gt in Hc. apply Nat.leb_le in Hc'. lia.
      * simpl. destruct (img2data b pre m); reflexivity.
    + simpl. destruct (img2data b pre m); reflexivity.
Qed.

(** [key_le s r]: the key [(confidence, len(text))] of [s] is not above
    the one of [r]. *)
Definition key_le (s r : ocr_result) : Prop :=
  confidence s < confidence r
  \/ (confidence s == confidence r /\ (String.length (text s) <= String.length (text r))%nat).

Lemma key_gt_true (a b : ocr_result) :
  key_gt a b = true -> key_le b a.
Proof.
  unfold key_gt, key_le. intros H. apply orb_true_iff in H as [H|H].
  - left. now apply Qlt_b_true.
  - apply andb_true_iff in H as [H1 H2]. apply Qeq_bool_iff in H1.
    apply Nat.ltb_lt in H2. right. split; [now symmetry|lia].
Qed.

Lemma key_gt_false (a b : ocr_result) :
  key_gt a b = false -> key_le a b.
Proof.
  unfold key_gt, key_le. intros H. apply orb_false_iff in H as [H1 H2].
  apply Qlt_b_false in H1. apply Qle_lteq in H1 as [H1|H1]; [now left|].
  right. split; [exact H1|].
  apply Qeq_bool_iff in H1. rewrite H1 in H2. simpl in H2.
  apply Nat.ltb_ge in H2. exact H2.
Qed.

Lemma key_le_refl (a : ocr_result) : key_le a a.
Proof. right. split; [reflexivity|lia]. Qed.

Lemma key_le_trans (a b c : ocr_result) : key_le a b -> key_le b c -> key_le a c.
Proof.
  unfold key_le. intros [H1|[H1 L1]] [H2|[H2 L2]].
  - left. eapply Qlt_trans; eassumption.
  - left. eapply Qlt_le_trans; [eassumption|]. apply Qle_lteq. now right.
  - left. eapply Qle_lt_trans; [|eassumption]. apply Qle_lteq. now right.
  - right. split; [eapply Qeq_trans; eassumption|lia].
Qed.

Lemma max_by_key_in (best : ocr_result) (l : list ocr_result) :
  In (max_by_key best l) (best :: l).
Proof.
  revert best. induction l as [|r l IH]; intros best; simpl; [now left|].
  destruct (IH (if key_gt r best then r else best)) as [H|H].
  - destruct (key_gt r best); rewrite <- H; simpl; auto.
  - auto.
Qed.

Lemma max_by_key_max (best : ocr_result) (l : list ocr_result) :
  forall s, In s (best :: l) -> key_le s (max_by_key best l).
Proof.
  revert best. induction l as [|r l IH]; intros best s Hs; simpl.
  - destruct Hs as [<-|[]]. apply key_le_refl.
  - set (b' := if key_gt r best then r else best).
    assert (Hb : key_le best b' /\ key_le r b').
    { unfold b'. destruct (key_gt r best) eqn:E.
      - split; [now apply key_gt_true|apply key_le_refl].
      - split; [apply key_le_refl|now apply key_gt_false]. }
    destruct Hs as [<-|[<-|Hs]].
    + eapply key_le_trans; [apply Hb|]. apply IH. now left.
    + eapply key_le_trans; [apply Hb|]. apply IH. now left.
    + apply IH. now right.
Qed.

Lemma flat_map_option_nil {A B} (f : A -> option B) (l : list A) :
  flat_map (fun a => option_to_list (f a)) l = [] <-> forall a, In a l -> f a = None.
Proof.
  induction l as [|a l IH]; simpl; [tauto|]. split.
  - intros H x [<-|Hx]; destruct (f a) eqn:E; simpl in H; try discriminate;
      first [reflexivity | now apply IH].
  - intros H. rewrite (H a (or_introl eq_refl)). simpl. apply IH. auto.
Qed.

Lemma in_flat_map_option {A B} (f : A -> option B) (l : list A) (y : B) :
  In y (flat_map (fun a => option_to_list (f a)) l) <-> exists a, In a l /\ f a = Some y.
Proof.
  rewrite in_flat_map. split.
  - intros [a [Ha Hy]]. exists a. split; [exact Ha|].
    destruct (f a); simpl in Hy; [destruct Hy as [<-|[]]; reflexivity|contradiction].
  - intros [a [Ha Hy]]. exists a. split; [exact Ha|]. rewrite Hy. now left.
Qed.

Lemma results_eq img2str img2data (b : rect) :
  results img2str img2data b
  = flat_map (fun c => option_to_list (claimed_survivor img2str img2data b (fst c) (snd c)))
      combinations.
Proof.
  unfold results. apply flat_map_ext. intros [pre m]. simpl.
  now rewrite try_combination_claimed.
Qed.

Lemma claimed_survivor_conf img2str img2data b pre m r :
  claimed_survivor img2str img2data b pre m = Some r -> 30 < confidence r.
Proof.
  unfold claimed_survivor.
  destruct (img2str b pre m); [|discriminate].
  destruct (img2data b pre m); [|discriminate].
  match goal with |- context [if ?c then _ else _] => destruct c eqn:E end;
    [|discriminate].
  intros H. injection H as <-. simpl.
  apply andb_true_iff in E as [_ E]. now apply Qlt_b_true.
Qed.

(** C3: the ensemble reports nothing exactly when no combination survives
    the specification's acceptance test; otherwise it reports a surviving
    reading whose key (confidence, then text length) no other survivor
    exceeds, and whose confidence is above 30. *)
Theorem ensemble_selects_best_survivor img2str img2data (b : rect) :
  (extract_sign_number img2str img2data b = None
   <-> forall pre m, In (pre, m) combinations ->
         claimed_survivor img2str img2data b pre m = None)
  /\ (forall r, extract_sign_number img2str img2data b = Some r ->
        (exists pre m, In (pre, m) combinations
                       /\ claimed_survivor img2str img2data b pre m = Some r)
        /\ (forall pre m s, In (pre, m) combinations ->
              claimed_survivor img2str img2data b pre m = Some s -> key_le s r)
        /\ 30 < confidence r).
Proof.
  unfold extract_sign_number. rewrite results_eq.
  set (F := fun c : preprocess * Z => claimed_survivor img2str img2data b (fst c) (snd c)).
  change (flat_map (fun c => option_to_list (claimed_survivor img2str img2data b (fst c) (snd c))) combinations)
    with (flat_map (fun c => option_to_list (F c)) combinations).
  split.
  - destruct (flat_map (fun c => option_to_list (F c)) combinations) eqn:E.
    + split; [intros _ pre m Hin | reflexivity].
      exact (proj1 (flat_map_option_nil F combinations) E (pre, m) Hin).
    + split; [discriminate|]. intros H.
      assert (Hnil : flat_map (fun c => option_to_list (F c)) combinations = []).
      { apply flat_map_option_nil. intros [pre m] Hin. exact (H pre m Hin). }
      congruence.
  - intros r. destruct (flat_map (fun c => option_to_list (F c)) combinations) as [|r0 rs] eqn:E;
      [discriminate|].
    intros H. injection H as <-.
    assert (Hin : In (max_by_key r0 rs) (r0 :: rs)) by apply max_by_key_in.
    rewrite <- E in Hin. apply in_flat_map_option in Hin as [[pre m] [Hc Hs]].
    split; [|split].
    + exists pre, m. split; assumption.
    + intros pre' m' s Hc' Hs'. apply max_by_key_max. rewrite <- E.
      apply in_flat_map_option. exists (pre', m'). split; assumption.
    + eapply claimed_survivor_conf. exact Hs.
Qed.

Lemma results_fst_snd img2str img2data (b : rect) :
  results img2str img2data b
  = flat_map (fun c => option_to_list (try_combination img2str img2data b (fst c) (snd c)))
      combinations.
Proof. unfold results. apply flat_map_ext. now intros [pre m]. Qed.

(** C7: a combination whose engine call raises contributes nothing, and
    the readings of the other combinations are all still collected. The
    box yields no detection exactly when every combination contributes
    nothing, whether its engine call raised or its reading was rejected.
    In particular, there is none when every combination raises. The page
    loop handles each box on its own: a box without a detection adds
    nothing, and the remaining boxes are processed all the same. *)
Theorem engine_failure_skipped img2str img2data :
  (forall b pre m, img2str b pre m = None \/ img2data b pre m = None ->
     try_combination img2str img2data b pre m = None)
  /\ (forall b pre m r, In (pre, m) combinations ->
        try_combination img2str img2data b pre m = Some r ->
        In r (results img2str img2data b))
  /\ (forall b, extract_sign_number img2str img2data b = None
        <-> forall pre m, In (pre, m) combinations ->
              try_combination img2str img2data b pre m = None)
  /\ (forall b, (forall pre m, In (pre, m) combinations ->
                   img2str b pre m = None \/ img2data b pre m = None) ->
        extract_sign_number img2str img2data b = None)
  /\ (forall W H b bs,
        process_boxes img2str img2data W H (b :: bs)
        = option_to_list (option_map (detection_of W H b) (extract_sign_number img2str img2data b))
          ++ process_boxes img2str img2data W H bs).
Proof.
  assert (Hraise : forall b pre m, img2str b pre m = None \/ img2data b pre m = None ->
            try_combination img2str img2data b pre m = None).
  { intros b pre m H. rewrite try_combination_claimed. unfold claimed_survivor.
    destruct H as [H|H]; rewrite H; [reflexivity|].
    destruct (img2str b pre m); reflexivity. }
  assert (Hnone : forall b, extract_sign_number img2str img2data b = None
            <-> forall pre m, In (pre, m) combinations ->
                  try_combination img2str img2data b pre m = None).
  { intros b. unfold extract_sign_number. rewrite results_fst_snd.
    set (F := fun c : preprocess * Z => try_combination img2str img2data b (fst c) (snd c)).
    change (flat_map (fun c => option_to_list (try_combination img2str img2data b (fst c) (snd c)))
              combinations) with (flat_map (fun c => option_to_list (F c)) combinations).
    destruct (flat_map (fun c => option_to_list (F c)) combinations) eqn:E.
    - split; [intros _ pre m Hin | reflexivity].
      exact (proj1 (flat_map_option_nil F combinations) E (pre, m) Hin).
    - split; [discriminate|]. intros H.
      assert (Hnil : flat_map (fun c => option_to_list (F c)) combinations = []).
      { apply flat_map_option_nil. intros [pre m] Hin. exact (H pre m Hin). }
      congruence. }
  split; [exact Hraise|]. split; [|split; [exact Hnone|split]].
  - intros b pre m r Hc Hr. rewrite results_fst_snd.
    apply (in_flat_map_option (fun c => try_combination img2str img2data b (fst c) (snd c))).
    exists (pre, m). split; assumption.
  - intros b Hall. unfold extract_sign_number. rewrite results_fst_snd.
    assert (Hnil : flat_map (fun c => option_to_list
                     (try_combination img2str img2data b (fst c) (snd c))) combinations = []).
    { apply flat_map_option_nil. intros [pre m] Hin. apply Hraise. now apply Hall. }
    now rewrite Hnil.
  - intros W H b bs. simpl. destruct (extract_sign_number img2str img2data b); reflexivity.
Qed.

End OcrProofs.

(** ** Hotspot percentages *)

Module HotspotProofs.

Import ColorGeometry OcrEnsemble EmbeddedText.

Local Open Scope Q_scope.

Lemma pct_range (a W : Q) : 0 < W -> 0 <= a -> a <= W -> 0 <= a / W * 100 /\ a / W * 100 <= 100.
Proof.
  intros HW Ha HaW. split.
  - apply Qmult_le_0_compat; [|unfold Qle; simpl; lia].
    apply Qle_shift_div_l; [exact HW|]. rewrite Qmult_0_l. exact Ha.
  - apply Qle_trans with (1 * 100); [|unfold Qle; simpl; lia].
    apply Qmult_le_compat_r; [|unfold Qle; simpl; lia].
    apply Qle_shift_div_r; [exact HW|]. rewrite Qmult_1_l. exact HaW.
Qed.

Lemma pct_nonneg_iff (a W : Q) : 0 < W -> (0 <= a / W * 100 <-> 0 <= a).
Proof.
  intros HW.
  assert (HW0 : ~ W == 0) by (intros Hc; rewrite Hc in HW; apply (Qlt_irrefl 0); exact HW).
  split; intros H.
  - setoid_replace a with ((a / W * 100) * (W / 100)) by (field; exact HW0).
    apply Qmult_le_0_compat; [exact H|].
    apply Qle_shift_div_l; [unfold Qlt; simpl; lia|].
    rewrite Qmult_0_l. apply Qlt_le_weak. exact HW.
  - apply Qmult_le_0_compat; [|unfold Qle; simpl; lia].
    apply Qle_shift_div_l; [exact HW|]. rewrite Qmult_0_l. exact H.
Qed.

(** A box lying inside a [W x H] page. *)
Definition box_inside (W H : Z) (b : rect) : Prop :=
  let '(x, y, w, h) := b in
  (0 <= x /\ 0 <= y /\ 0 <= w /\ 0 <= h /\ x + w <= W /\ y + h <= H)%Z.

Definition in_pct (v : Q) : Prop := 0 <= v /\ v <= 100.

Lemma detection_of_in_pct (W H : Z) (b : rect) (r : ocr_result) :
  (0 < W)%Z -> (0 < H)%Z -> box_inside W H b ->
  let d := detection_of W H b r in
  in_pct (x_percentage d) /\ in_pct (y_percentage d)
  /\ in_pct (width_percentage d) /\ in_pct (height_percentage d).
Proof.
  destruct b as [[[x y] w] h]. simpl. intros HW HH (Hx & Hy & Hw & Hh & HxW & HyH).
  unfold in_pct.
  assert (QW : 0 < inject_Z W) by (unfold Qlt; simpl; lia).
  assert (QH : 0 < inject_Z H) by (unfold Qlt; simpl; lia).
  split; [|split; [|split]]; apply pct_range; try assumption; unfold Qle; simpl; lia.
Qed.

Lemma process_boxes_in_pct img2str img2data (W H : Z) (boxes : list rect) :
  (0 < W)%Z -> (0 < H)%Z -> Forall (box_inside W H) boxes ->
  forall d, In d (process_boxes img2str img2data W H boxes) ->
  in_pct (x_percentage d) /\ in_pct (y_percentage d)
  /\ in_pct (width_percentage d) /\ in_pct (height_percentage d).
Proof.
  intros HW HH. induction 1 as [|b bs Hb Hbs IH]; simpl; [tauto|].
  destruct (extract_sign_number img2str img2data b) as [r|].
  - intros d [<-|Hd]; [now apply detection_of_in_pct|now apply IH].
  - exact IH.
Qed.

(** C2 (as stated): an embedded-text hotspot can leave [0, 100]: the
    label "2001" printed at the left edge of a 100 x 100 page (text box
    (0, 0)-(10, 10)) gets a hotspot starting at x = -3%. *)
Lemma embedded_hotspot_leaves_page :
  existsb (fun s => Qlt_b (hotspot_x_percentage s) 0)
    (extract_signs_from_page
       (mk_page_layer 100 100
          [mk_dict_block 0 [[mk_span "2001" (0, 0, 10, 10)]]] []) 1) = true.
Proof. vm_compute. reflexivity. Qed.

(** C2 (amended): the detections of the OCR path, for marker boxes lying
    inside the page, have all four percentages in [0, 100]; the hotspots of
    the embedded-text path are not clamped: the left (top) coordinate is
    non-negative exactly when the native text box starts at least 30% of
    its width (height) away from the page's left (top) edge. *)
Theorem hotspot_percentage_ranges :
  (forall img2str img2data (W H : Z) (boxes : list rect) d,
     (0 < W)%Z -> (0 < H)%Z -> Forall (box_inside W H) boxes ->
     In d (process_boxes img2str img2data W H boxes) ->
     in_pct (x_percentage d) /\ in_pct (y_percentage d)
     /\ in_pct (width_percentage d) /\ in_pct (height_percentage d))
  /\ (forall sn page_num tx ty tw th pw ph,
        0 < pw -> 0 < ph ->
        (0 <= hotspot_x_percentage (make_hotspot sn page_num tx ty tw th pw ph)
         <-> tw * HOTSPOT_EXPANSION <= tx)
        /\ (0 <= hotspot_y_percentage (make_hotspot sn page_num tx ty tw th pw ph)
            <-> th * HOTSPOT_EXPANSION <= ty)).
Proof.
  split.
  - intros img2str img2data W H boxes d HW HH Hb Hd.
    exact (process_boxes_in_pct img2str img2data W H boxes HW HH Hb d Hd).
  - intros sn page_num tx ty tw th pw ph Hpw Hph. simpl.
    rewrite !pct_nonneg_iff by assumption.
    rewrite (Qle_minus_iff (tw * HOTSPOT_EXPANSION)), (Qle_minus_iff (th * HOTSPOT_EXPANSION)).
    unfold Qminus. tauto.
Qed.

End HotspotProofs.

(** ** Embedded-text extractor *)

Module EmbeddedProofs.

Import PyStr EmbeddedText.

Lemma span_digits_fst (r : string) : snd (span_digits (fst (span_digits r))) = EmptyString.
Proof.
  induction r as [|c r IH]; [reflexivity|]. simpl.
  destruct (is_digit c) eqn:Hc; [|reflexivity].
  destruct (span_digits r) as [ds r'] eqn:E. simpl in *. rewrite Hc.
  destruct (span_digits ds) as [ds' r''] eqn:E'. simpl in *. exact IH.
Qed.

(** What [SIGN_PATTERN] captures has the label shape. *)
Lemma sign_match_pattern (t g : string) : sign_match t = Some g -> label_pattern g = true.
Proof.
  destruct t as [|d1 [|d2 [|d3 [|d4 rest]]]]; simpl; try discriminate.
  destruct (is_digit d1 && is_digit d2 && is_digit d3 && is_digit d4) eqn:Hd; [|discriminate].
  assert (Hfour : label_pattern (String d1 (String d2 (String d3 (String d4 EmptyString)))) = true)
    by (simpl; now rewrite Hd).
  destruct rest as [|c r].
  - intros H. injection H as <-. exact Hfour.
  - destruct (Ascii.eqb c "."%char) eqn:Ec.
    + destruct (span_digits r) as [ds r'] eqn:Es.
      destruct (negb (OcrEnsemble.is_empty ds) && at_end r') eqn:Ee.
      * intros H. injection H as <-. simpl. rewrite Hd. simpl.
        apply andb_true_iff in Ee as [Hne _]. unfold all_digits. rewrite Hne. simpl.
        pose proof (span_digits_fst r) as Hf. rewrite Es in Hf. simpl in Hf.
        now rewrite Hf.
      * destruct (at_end (String c r)); [|discriminate]. intros H. injection H as <-. exact Hfour.
    + destruct (at_end (String c r)); [|discriminate]. intros H. injection H as <-. exact Hfour.
Qed.

Lemma fold_left_invariant {A B} (f : A -> B -> A) (P : A -> Prop) :
  (forall a b, P a -> P (f a b)) -> forall l a, P a -> P (fold_left f l a).
Proof. intros Hf l. induction l as [|b l IH]; intros a Ha; simpl; auto. Qed.

Lemma fold_left_extends {A B} (f : list A -> B -> list A) :
  (forall a b, exists s, f a b = a ++ s) ->
  forall l a, exists s, fold_left f l a = a ++ s.
Proof.
  intros Hf l. induction l as [|b l IH]; intros a; simpl.
  - exists []. now rewrite app_nil_r.
  - destruct (Hf a b) as [s1 E1]. destruct (IH (f a b)) as [s2 E2].
    exists (s1 ++ s2). rewrite E2, E1. now rewrite app_assoc.
Qed.

Lemma fold_left_reaches {A B} (f : list A -> B -> list A) (Q : list A -> Prop) :
  (forall a b, exists s, f a b = a ++ s) ->
  (forall a s, Q a -> Q (a ++ s)) ->
  forall l a x, In x l -> (forall a, Q (f a x)) -> Q (fold_left f l a).
Proof.
  intros Hf HQ l. induction l as [|b l IH]; intros a x Hx Hfx; [destruct Hx|].
  destruct Hx as [<-|Hx]; simpl.
  - destruct (fold_left_extends f Hf l (f a b)) as [s E]. rewrite E. apply HQ, Hfx.
  - eapply IH; eassumption.
Qed.

Lemma fallback_line_extends p page_num x0 y0 x1 y1 n :
  forall signs ln, exists s, fallback_line p page_num x0 y0 x1 y1 n signs ln = signs ++ s.
Proof.
  intros signs ln. unfold fallback_line.
  destruct (sign_match (py_strip ln)) as [sn|].
  - destruct (existsb _ signs); [exists []; now rewrite app_nil_r|eexists; reflexivity].
  - exists []. now rewrite app_nil_r.
Qed.

Lemma fallback_block_extends p page_num :
  forall signs blk, exists s, fallback_block p page_num signs blk = signs ++ s.
Proof.
  intros signs [[[[[[x0 y0] x1] y1] txt] bno] bty]. unfold fallback_block.
  apply fold_left_extends. apply fallback_line_extends.
Qed.

Lemma structured_walk_pattern p page_num :
  Forall (fun s => label_pattern (sign_number s) = true) (structured_walk p page_num).
Proof.
  apply Forall_forall. intros s Hs. unfold structured_walk in Hs.
  apply in_flat_map in Hs as [blk [_ Hs]].
  destruct (Z.eqb (block_type blk) 0); [|destruct Hs].
  apply in_flat_map in Hs as [ln [_ Hs]]. apply in_flat_map in Hs as [sp [_ Hs]].
  unfold span_signs in Hs. destruct (sign_match (py_strip (span_text sp))) as [sn|] eqn:E;
    [|destruct Hs].
  destruct (span_bbox sp) as [[[b0 b1] b2] b3].
  destruct Hs as [<-|[]]. simpl. eapply sign_match_pattern. exact E.
Qed.

Lemma fallback_block_pattern p page_num signs blk :
  Forall (fun s => label_pattern (sign_number s) = true) signs ->
  Forall (fun s => label_pattern (sign_number s) = true) (fallback_block p page_num signs blk).
Proof.
  destruct blk as [[[[[[x0 y0] x1] y1] txt] bno] bty]. unfold fallback_block.
  apply fold_left_invariant. intros acc ln Hacc. unfold fallback_line.
  destruct (sign_match (py_strip ln)) as [sn|] eqn:E; [|exact Hacc].
  destruct (existsb _ acc); [exact Hacc|].
  apply Forall_app. split; [exact Hacc|]. constructor; [|constructor].
  simpl. eapply sign_match_pattern. exact E.
Qed.

(** Every label the extractor emits has the shape four digits, optionally
    a dot and digits. *)
Lemma emitted_labels_match_pattern p page_num :
  Forall (fun s => label_pattern (sign_number s) = true) (extract_signs_from_page p page_num).
Proof.
  unfold extract_signs_from_page. apply fold_left_invariant.
  - intros acc blk. apply fallback_block_pattern.
  - apply structured_walk_pattern.
Qed.

(** C1: the extractor does emit "0000": a page whose text layer holds the
    single span "0000" yields one detection with that label (the
    ATL06 extractor of the same repository excludes it explicitly). *)
Theorem zero_label_emitted :
  map sign_number
    (extract_signs_from_page
       (mk_page_layer 100 100 [mk_dict_block 0 [[mk_span "0000" (0, 0, 10, 10)%Q]]] []) 1)
  = ["0000"%string].
Proof. vm_compute. reflexivity. Qed.

Lemma NoDup_snoc {A} (l : list A) (x : A) : NoDup l -> ~ In x l -> NoDup (l ++ [x]).
Proof.
  induction 1 as [|a l Ha Hl IH]; intros Hx; simpl.
  - constructor; [intros []|constructor].
  - constructor.
    + rewrite in_app_iff. intros [H|[H|[]]]; [contradiction|]. apply Hx. now left.
    + apply IH. intros H. apply Hx. now right.
Qed.

Lemma existsb_label_false (signs : list sign_hotspot) (sn : string) :
  existsb (fun s => String.eqb (sign_number s) sn) signs = false ->
  ~ In sn (map sign_number signs).
Proof.
  intros Hf Hin. apply in_map_iff in Hin as [s [Hs Hin]].
  assert (existsb (fun s => String.eqb (sign_number s) sn) signs = true).
  { apply existsb_exists. exists s. split; [exact Hin|]. apply String.eqb_eq. exact Hs. }
  congruence.
Qed.

Lemma existsb_label_true (signs : list sign_hotspot) (sn : string) :
  existsb (fun s => String.eqb (sign_number s) sn) signs = true ->
  In sn (map sign_number signs).
Proof.
  intros Ht. apply existsb_exists in Ht as [s [Hin Hs]]. apply String.eqb_eq in Hs.
  apply in_map_iff. exists s. split; assumption.
Qed.

(** The signs collected so far: the structured walk's, then fallback finds
    that repeat no label. *)
Definition fallback_inv (S acc : list sign_hotspot) : Prop :=
  exists F, acc = S ++ F /\ NoDup (map sign_number F)
            /\ forall l, In l (map sign_number F) -> ~ In l (map sign_number S).

Lemma fallback_block_inv p page_num S acc blk :
  fallback_inv S acc -> fallback_inv S (fallback_block p page_num acc blk).
Proof.
  destruct blk as [[[[[[x0 y0] x1] y1] txt] bno] bty]. unfold fallback_block.
  apply fold_left_invariant. clear acc. intros acc ln [F [-> [HF HS]]]. unfold fallback_line.
  destruct (sign_match (py_strip ln)) as [sn|]; [|exists F; auto].
  destruct (existsb _ (S ++ F)) eqn:E; [exists F; auto|].
  apply existsb_label_false in E. rewrite map_app, in_app_iff in E.
  eexists (F ++ [_]). split; [now rewrite app_assoc|]. split.
  - rewrite map_app. simpl. apply NoDup_snoc; [exact HF|]. intros H. apply E. now right.
  - intros l. rewrite map_app, in_app_iff. simpl. intros [H|[<-|[]]]; [now apply HS|].
    intros H. apply E. now left.
Qed.

(** One fallback line as a step over its candidate: the candidate is
    appended unless its label is already collected. *)
Definition keep_step (acc : list sign_hotspot) (c : sign_hotspot) : list sign_hotspot :=
  if existsb (fun s => String.eqb (sign_number s) (sign_number c)) acc then acc
  else acc ++ [c].

Lemma fold_left_flat_map {A B C} (f : A -> C -> A) (g : B -> list C) (l : list B) (a : A) :
  fold_left f (flat_map g l) a = fold_left (fun a x => fold_left f (g x) a) l a.
Proof.
  revert a. induction l as [|x l IH]; intros a; simpl; [reflexivity|].
  rewrite fold_left_app. apply IH.
Qed.

Lemma fold_left_ext_in {A B} (f g : A -> B -> A) (l : list B) :
  (forall b a, In b l -> f a b = g a b) -> forall a, fold_left f l a = fold_left g l a.
Proof.
  induction l as [|b l IH]; intros H a; simpl; [reflexivity|].
  rewrite (H b a (or_introl eq_refl)). apply IH. intros b' a' Hb. apply H. now right.
Qed.

Lemma extract_as_keep_steps p page_num :
  extract_signs_from_page p page_num
  = fold_left keep_step (fallback_candidates p page_num) (structured_walk p page_num).
Proof.
  unfold extract_signs_from_page, fallback_candidates. rewrite fold_left_flat_map.
  apply fold_left_ext_in. intros [[[[[[x0 y0] x1] y1] txt] bno] bty] acc _.
  unfold fallback_block. rewrite fold_left_flat_map.
  apply fold_left_ext_in. intros ln acc' _. unfold fallback_line.
  destruct (sign_match (py_strip ln)) as [sn|]; reflexivity.
Qed.

Lemma existsb_eqb_In (x : string) (l : list string) :
  existsb (String.eqb x) l = true <-> In x l.
Proof.
  rewrite existsb_exists. split.
  - intros [y [Hy E]]. apply String.eqb_eq in E. now subst.
  - intros H. exists x. split; [exact H|]. apply String.eqb_refl.
Qed.

Lemma keep_steps_first_new (cands acc : list sign_hotspot) (seen : list string) :
  (forall l, In l seen <-> In l (map sign_number acc)) ->
  fold_left keep_step cands acc = acc ++ first_new seen cands.
Proof.
  revert acc seen. induction cands as [|c cs IH]; intros acc seen Hseen; simpl.
  - now rewrite app_nil_r.
  - unfold keep_step at 2.
    destruct (existsb (fun s => String.eqb (sign_number s) (sign_number c)) acc) eqn:Ea;
    destruct (existsb (String.eqb (sign_number c)) seen) eqn:Es.
    + simpl. apply (IH acc (seen ++ [sign_number c])). intros l. rewrite in_app_iff, Hseen. simpl.
      apply existsb_label_true in Ea. split; [intros [H|[<-|[]]]; auto|auto].
    + exfalso. apply existsb_label_true, Hseen, existsb_eqb_In in Ea. congruence.
    + exfalso. apply existsb_eqb_In, Hseen in Es. apply existsb_label_false in Ea. auto.
    + rewrite (IH (acc ++ [c]) (seen ++ [sign_number c])); [now rewrite <- app_assoc|].
      intros l. rewrite in_app_iff, Hseen, map_app, in_app_iff. reflexivity.
Qed.

(** C6 (as stated): two fallback blocks reading "2001", on a page whose
    structured walk finds nothing, give one detection, not the two the
    claim's rule (dedup against the structured walk only) keeps. *)
Lemma fallback_dedups_fallback :
  let p := mk_page_layer 100 100 []
             [(0, 0, 10, 10, "2001"%string, 0%Z, 0%Z); (50, 50, 60, 60, "2001"%string, 1%Z, 0%Z)]%Q in
  map sign_number (extract_signs_from_page p 1) = ["2001"%string]
  /\ map sign_number (claimed_extract_signs_from_page p 1) = ["2001"%string; "2001"%string].
Proof. split; vm_compute; reflexivity. Qed.

(** C6 (amended): the result is the structured walk followed by the
    fallback candidates (the matching lines of the block walk, in order)
    kept by first-found-wins: a candidate is kept if and only if its label
    is not among the signs collected so far, those of the structured walk
    and the fallback finds kept before it. So the fallback finds repeat no
    label of either, and every label matched on a fallback line is present
    in the result. *)
Theorem fallback_keeps_new_labels (p : page_layer) (page_num : Z) :
  extract_signs_from_page p page_num
  = structured_walk p page_num
    ++ first_new (map sign_number (structured_walk p page_num)) (fallback_candidates p page_num)
  /\ extract_signs_from_page p page_num
     = fold_left keep_step (fallback_candidates p page_num) (structured_walk p page_num)
  /\ NoDup (map sign_number (first_new (map sign_number (structured_walk p page_num))
                                       (fallback_candidates p page_num)))
  /\ (forall l, In l (map sign_number (first_new (map sign_number (structured_walk p page_num))
                                                 (fallback_candidates p page_num))) ->
        ~ In l (map sign_number (structured_walk p page_num)))
  /\ (forall x0 y0 x1 y1 txt bno bty ln sn,
        In (x0, y0, x1, y1, txt, bno, bty) (text_blocks p) ->
        In ln (split_on "010"%char (py_strip txt)) ->
        sign_match (py_strip ln) = Some sn ->
        In sn (map sign_number (extract_signs_from_page p page_num))).
Proof.
  set (S := structured_walk p page_num).
  set (F := first_new (map sign_number S) (fallback_candidates p page_num)).
  assert (HE : extract_signs_from_page p page_num = S ++ F).
  { unfold F, S. rewrite extract_as_keep_steps. apply keep_steps_first_new. reflexivity. }
  assert (Hinv : fallback_inv S (extract_signs_from_page p page_num)).
  { unfold extract_signs_from_page. apply fold_left_invariant.
    - intros acc blk. apply fallback_block_inv.
    - exists []. rewrite app_nil_r. split; [reflexivity|]. split; [constructor|]. intros l [].
  }
  destruct Hinv as [F' [HF [Hnd Hdis]]].
  rewrite HE in HF. apply app_inv_head in HF. rewrite <- HF in Hnd, Hdis.
  split; [exact HE|]. split; [apply extract_as_keep_steps|]. split; [exact Hnd|]. split; [exact Hdis|].
  intros x0 y0 x1 y1 txt bno bty ln sn Hblk Hln Hsn.
  set (Q := fun acc : list sign_hotspot => In sn (map sign_number acc)).
  assert (HQ : forall a s, Q a -> Q (a ++ s)).
  { intros a s' Ha. unfold Q in *. rewrite map_app, in_app_iff. now left. }
  apply (fold_left_reaches (fallback_block p page_num) Q (fallback_block_extends p page_num) HQ
           (text_blocks p) _ _ Hblk).
  intros acc. unfold fallback_block.
  apply (fold_left_reaches _ Q (fallback_line_extends _ _ _ _ _ _ _) HQ _ _ _ Hln).
  intros acc'. unfold Q, fallback_line. rewrite Hsn.
  destruct (existsb _ acc') eqn:E.
  - now apply existsb_label_true.
  - rewrite map_app, in_app_iff. right. now left.
Qed.

End EmbeddedProofs.

(** ** Proximity grouper *)

Module GrouperProofs.

Import PyStr Grouper.

(** What the grouper reads of a sign: its label and its position. *)
Definition key (s : gsign) : string * Q * Q := (g_sign_number s, g_x s, g_y s).

Definition keys (l : list gsign) : list (string * Q * Q) := map key l.

Lemma update_nth_keys (k : nat) (lab : string) (n : Z) (l : list gsign) :
  keys (update_nth k (set_group lab n) l) = keys l.
Proof.
  revert k. induction l as [|a l IH]; intros [|k]; simpl; try reflexivity.
  unfold keys in IH. now rewrite IH.
Qed.

Lemma apply_writes_keys (ws : list (nat * string * Z)) (l : list gsign) :
  keys (apply_writes ws l) = keys l.
Proof.
  unfold apply_writes. revert l. induction ws as [|[[k lab] n] ws IH]; intros l; simpl;
    [reflexivity|].
  rewrite IH. apply update_nth_keys.
Qed.

Lemma apply_writes_app ws1 ws2 l :
  apply_writes (ws1 ++ ws2) l = apply_writes ws2 (apply_writes ws1 l).
Proof. unfold apply_writes. apply fold_left_app. Qed.

Lemma is_close_key t s1 s1' s2 s2' :
  key s1 = key s1' -> key s2 = key s2' -> is_close t s1 s2 = is_close t s1' s2'.
Proof.
  unfold key, is_close. intros H1 H2. injection H1 as _ -> ->. injection H2 as _ -> ->.
  reflexivity.
Qed.

Lemma scan_keys t i s1 s1' base :
  key s1 = key s1' ->
  forall rest1 rest2 j grp used, keys rest1 = keys rest2 ->
  scan t i s1 base j rest1 grp used = scan t i s1' base j rest2 grp used.
Proof.
  intros Hs1 rest1. induction rest1 as [|a rest1 IH]; intros [|b rest2] j grp used Hk;
    try discriminate; [reflexivity|].
  injection Hk as Hn Hx Hy Hk. simpl.
  assert (Hab : key a = key b) by (unfold key; congruence).
  rewrite Hn, (is_close_key t s1 s1' a b Hs1 Hab).
  destruct (_ && _ && _ && _); apply IH; exact Hk.
Qed.

Lemma step_writes t (L : list gsign) (used : list nat) (i : nat) :
  exists ws used', forall L', keys L' = keys L ->
    step t (L', used) i = (apply_writes ws L', used').
Proof.
  unfold step. destruct (mem i used).
  - exists [], used. intros L' _. reflexivity.
  - destruct (nth_error L i) as [s1|] eqn:E.
    + set (base := hd EmptyString (split_on "."%char (g_sign_number s1))).
      destruct (if contains_char "."%char (g_sign_number s1)
                then scan t i s1 base 0 L [i] (used ++ [i])
                else ([i], used ++ [i])) as [grp used'] eqn:Hg.
      exists (if (1 <? List.length grp)%nat
              then group_writes (group_label base (List.length grp)) grp else []), used'.
      intros L' HL.
      assert (Hn : option_map key (nth_error L' i) = option_map key (nth_error L i))
        by (rewrite <- !nth_error_map; unfold keys in HL; now rewrite HL).
      rewrite E in Hn. destruct (nth_error L' i) as [s1'|]; [|discriminate].
      injection Hn as Hsn Hx Hy.
      assert (Hk : key s1' = key s1) by (unfold key; congruence).
      rewrite Hsn. fold base.
      rewrite (scan_keys t i s1' s1 base Hk L' L 0 [i] (used ++ [i]) HL), Hg.
      destruct (1 <? List.length grp)%nat; reflexivity.
    + exists [], (used). intros L' HL.
      assert (Hn : option_map key (nth_error L' i) = option_map key (nth_error L i))
        by (rewrite <- !nth_error_map; unfold keys in HL; now rewrite HL).
      rewrite E in Hn. destruct (nth_error L' i); [discriminate|reflexivity].
Qed.

Lemma fold_writes t (idxs : list nat) :
  forall (L : list gsign) (used : list nat),
  exists ws used', forall L', keys L' = keys L ->
    fold_left (step t) idxs (L', used) = (apply_writes ws L', used').
Proof.
  induction idxs as [|i idxs IH]; intros L used.
  - exists [], used. intros L' _. reflexivity.
  - destruct (step_writes t L used i) as [ws1 [u1 H1]].
    destruct (IH (apply_writes ws1 L) u1) as [ws2 [u2 H2]].
    exists (ws1 ++ ws2), u2. intros L' HL. cbn [fold_left].
    rewrite (H1 L' HL), H2.
    + now rewrite apply_writes_app.
    + now rewrite !apply_writes_keys.
Qed.

(** The last write to index [k] in a list of writes. *)
Fixpoint last_write (k : nat) (ws : list (nat * string * Z)) : option (string * Z) :=
  match ws with
  | [] => None
  | (k', lab, n) :: ws' =>
      match last_write k ws' with
      | Some r => Some r
      | None => if Nat.eqb k' k then Some (lab, n) else None
      end
  end.

Definition apply_last (k : nat) (ws : list (nat * string * Z)) (s : gsign) : gsign :=
  match last_write k ws with
  | Some (lab, n) => set_group lab n s
  | None => s
  end.

Lemma nth_error_update_nth {A} (f : A -> A) (l : list A) :
  forall k' k, nth_error (update_nth k' f l) k
               = if Nat.eqb k' k then option_map f (nth_error l k) else nth_error l k.
Proof.
  induction l as [|a l IH]; intros [|k'] [|k]; simpl; try reflexivity;
    try (destruct (Nat.eqb _ _); reflexivity).
  apply IH.
Qed.

Lemma nth_error_apply_writes (ws : list (nat * string * Z)) :
  forall (l : list gsign) k,
  nth_error (apply_writes ws l) k = option_map (apply_last k ws) (nth_error l k).
Proof.
  induction ws as [|[[k' lab] n] ws IH]; intros l k.
  - unfold apply_last. simpl. destruct (nth_error l k); reflexivity.
  - change (apply_writes ((k', lab, n) :: ws) l)
      with (apply_writes ws (update_nth k' (set_group lab n) l)).
    rewrite IH, nth_error_update_nth. unfold apply_last. simpl.
    destruct (last_write k ws) as [[lab' n']|] eqn:E.
    + destruct (Nat.eqb k' k); destruct (nth_error l k); reflexivity.
    + destruct (Nat.eqb k' k); destruct (nth_error l k); reflexivity.
Qed.

Lemma apply_writes_idem (ws : list (nat * string * Z)) (l : list gsign) :
  apply_writes ws (apply_writes ws l) = apply_writes ws l.
Proof.
  apply nth_error_ext. intros k. rewrite !nth_error_apply_writes.
  destruct (nth_error l k) as [s|]; [|reflexivity]. simpl. f_equal.
  unfold apply_last. destruct (last_write k ws) as [[lab n]|]; reflexivity.
Qed.

Lemma group_page_writes t (L : list gsign) :
  exists ws, group_page t L = apply_writes ws L
             /\ forall L', keys L' = keys L -> group_page t L' = apply_writes ws L'.
Proof.
  destruct (fold_writes t (seq 0 (List.length L)) L []) as [ws [u H]].
  exists (if (List.length L <? 2)%nat then [] else ws).
  assert (Hall : forall L', keys L' = keys L ->
            group_page t L' = apply_writes (if (List.length L <? 2)%nat then [] else ws) L').
  { intros L' HL. unfold group_page.
    assert (Hlen : List.length L' = List.length L)
      by (rewrite <- (length_map key L'), <- (length_map key L); unfold keys in HL; now rewrite HL).
    rewrite Hlen. destruct (List.length L <? 2)%nat; [reflexivity|].
    now rewrite (H L' HL). }
  split; [now apply Hall|exact Hall].
Qed.

(** C9: the grouper is idempotent: grouping an already grouped result set
    gives back the same result set, labels, positions and group fields
    alike. *)
Theorem group_nearby_signs_idempotent (t : Q) (pages : list (list gsign)) :
  group_nearby_signs t (group_nearby_signs t pages) = group_nearby_signs t pages.
Proof.
  unfold group_nearby_signs. rewrite map_map. apply map_ext. intros L.
  destruct (group_page_writes t L) as [ws [H1 H2]].
  rewrite H1, (H2 (apply_writes ws L)) by apply apply_writes_keys.
  apply apply_writes_idem.
Qed.

Lemma mem_In (k : nat) (l : list nat) : mem k l = true <-> In k l.
Proof.
  induction l as [|a l IH]; simpl; [split; [discriminate|intros []]|].
  rewrite orb_true_iff, IH, Nat.eqb_eq. tauto.
Qed.

Lemma mem_app (k : nat) (l1 l2 : list nat) : mem k (l1 ++ l2) = mem k l1 || mem k l2.
Proof. induction l1 as [|a l1 IH]; simpl; [reflexivity|]. rewrite IH. apply orb_assoc. Qed.

(** The candidates the inner loop takes, from index [j] on, judged
    against the set [used] it starts from. *)
Definition joins (t : Q) (i : nat) (sign1 : gsign) (base : string) (used : list nat)
    (j : nat) (sign2 : gsign) : bool :=
  negb (Nat.eqb j i) && negb (mem j used)
  && String.prefix (base ++ ".") (g_sign_number sign2) && is_close t sign1 sign2.

Fixpoint selected (t : Q) (i : nat) (sign1 : gsign) (base : string) (used : list nat)
    (j : nat) (rest : list gsign) : list nat :=
  match rest with
  | [] => []
  | sign2 :: rest' =>
      if joins t i sign1 base used j sign2
      then j :: selected t i sign1 base used (S j) rest'
      else selected t i sign1 base used (S j) rest'
  end.

Lemma scan_selected t i sign1 base used :
  forall rest j grp extra, (forall x, In x extra -> x < j)%nat ->
  scan t i sign1 base j rest grp (used ++ extra)
  = (grp ++ selected t i sign1 base used j rest,
     used ++ extra ++ selected t i sign1 base used j rest).
Proof.
  induction rest as [|s2 rest IH]; intros j grp extra Hx; simpl.
  - now rewrite !app_nil_r.
  - assert (Hm : mem j extra = false).
    { destruct (mem j extra) eqn:E; [|reflexivity].
      apply mem_In, Hx in E. lia. }
    unfold joins. rewrite mem_app, Hm, orb_false_r.
    destruct (_ && _ && _ && _).
    + rewrite <- app_assoc. rewrite IH.
      * now rewrite <- !app_assoc.
      * intros x Hin. apply in_app_iff in Hin as [Hin|[<-|[]]]; [apply Hx in Hin|]; lia.
    + apply IH. intros x Hin. apply Hx in Hin. lia.
Qed.

Lemma selected_In t i sign1 base used :
  forall rest j0 j, In j (selected t i sign1 base used j0 rest)
  <-> (j0 <= j)%nat /\ exists s2, nth_error rest (j - j0) = Some s2
                                 /\ joins t i sign1 base used j s2 = true.
Proof.
  induction rest as [|s2 rest IH]; intros j0 j; simpl.
  - split; [intros []|]. intros [_ [s2 [H _]]]. destruct (j - j0)%nat; discriminate.
  - assert (Hstep : ((j0 <= j /\ exists s, nth_error (s2 :: rest) (j - j0) = Some s
                                          /\ joins t i sign1 base used j s = true)
                    <-> (j = j0 /\ joins t i sign1 base used j0 s2 = true)
                        \/ (S j0 <= j /\ exists s, nth_error rest (j - S j0) = Some s
                                                   /\ joins t i sign1 base used j s = true))%nat).
    { split.
      - intros [Hle [s [Hs Hj]]]. destruct (Nat.eq_dec j j0) as [->|Hne].
        + left. rewrite Nat.sub_diag in Hs. simpl in Hs. injection Hs as ->. auto.
        + right. split; [lia|]. exists s. split; [|exact Hj].
          replace (j - j0)%nat with (S (j - S j0)) in Hs by lia. exact Hs.
      - intros [[-> Hj]|[Hle [s [Hs Hj]]]].
        + split; [lia|]. exists s2. rewrite Nat.sub_diag. auto.
        + split; [lia|]. exists s. split; [|exact Hj].
          replace (j - j0)%nat with (S (j - S j0)) by lia. exact Hs. }
    rewrite Hstep, <- IH.
    destruct (joins t i sign1 base used j0 s2) eqn:E; simpl.
    + split; [intros [<-|H]; auto|intros [[<- _]|H]; auto].
    + split; [intros H; auto|intros [[<- H]|H]; [congruence|exact H]].
Qed.

(** C8 (as stated): a candidate sharing the seed's integer base without
    a decimal suffix does not join: "2001" half a point below "2001.1"
    meets the claim's rule, yet the page comes back ungrouped. *)
Lemma integer_label_not_joined :
  let s1 := mk_gsign "2001.1" 10 20 None None in
  let s2 := mk_gsign "2001" 10 (41 # 2) None None in
  claimed_joins default_threshold s1 s2 = true
  /\ group_page default_threshold [s1; s2] = [s1; s2].
Proof. split; vm_compute; reflexivity. Qed.

(** C8 (amended): for an unvisited seed with a decimal suffix, the group
    is the seed together with exactly the unvisited candidates whose label
    starts with the seed's integer base followed by a dot and whose offsets
    from the seed satisfy (|dx| < t and |dy| < 3t) or (|dy| < t and
    |dx| < 3t); a group of two or more is written, on each member, the
    shared label and the group size, and a singleton leaves the signs
    untouched. With t = 2.0, "2001.1" at (10.0%, 20.0%) and "2001.2" at
    (10.0%, 21.5%) form one group of size 2. *)
Theorem series_seed_group :
  (forall (t : Q) (signs : list gsign) (used : list nat) (i : nat) (sign1 : gsign),
    mem i used = false -> nth_error signs i = Some sign1 ->
    contains_char "."%char (g_sign_number sign1) = true ->
    let base := hd EmptyString (split_on "."%char (g_sign_number sign1)) in
    exists grp used',
      step t (signs, used) i
      = (if (1 <? List.length grp)%nat
         then apply_writes (group_writes (group_label base (List.length grp)) grp) signs
         else signs, used')
      /\ forall j, In j grp <->
           j = i \/ (j <> i /\ mem j used = false
                     /\ exists sign2, nth_error signs j = Some sign2
                        /\ String.prefix (base ++ ".") (g_sign_number sign2) = true
                        /\ is_close t sign1 sign2 = true))
  /\ group_page default_threshold
       [mk_gsign "2001.1" 10 20 None None; mk_gsign "2001.2" 10 (43 # 2) None None]
     = [mk_gsign "2001.1" 10 20 (Some "2001 series (2 signs)"%string) (Some 2%Z);
        mk_gsign "2001.2" 10 (43 # 2) (Some "2001 series (2 signs)"%string) (Some 2%Z)].
Proof.
  split; [|vm_compute; reflexivity].
  intros t signs used i sign1 Hm Hn Hs base.
  pose proof (scan_selected t i sign1 base (used ++ [i]) signs 0 [i] [] ltac:(intros x [])) as Hsc.
  rewrite app_nil_r, app_nil_l in Hsc.
  exists (i :: selected t i sign1 base (used ++ [i]) 0 signs),
         ((used ++ [i]) ++ selected t i sign1 base (used ++ [i]) 0 signs).
  split.
  - unfold step. rewrite Hm, Hn. cbv zeta.
    change (hd EmptyString (split_on "."%char (g_sign_number sign1))) with base.
    rewrite Hs, Hsc. simpl app. destruct (1 <? _)%nat; reflexivity.
  - intros j. simpl In. rewrite selected_In. unfold joins.
    rewrite mem_app. simpl mem.
    split.
    + intros [->|[_ [s2 [Hj Hjoin]]]]; [now left|].
      rewrite Nat.sub_0_r in Hj.
      apply andb_true_iff in Hjoin as [Hjoin Hc].
      apply andb_true_iff in Hjoin as [Hjoin Hp].
      apply andb_true_iff in Hjoin as [Hji Hu].
      apply negb_true_iff, Nat.eqb_neq in Hji.
      apply negb_true_iff, orb_false_iff in Hu as [Hu _].
      right. split; [exact Hji|]. split; [exact Hu|]. exists s2. auto.
    + intros [->|[Hji [Hu [s2 [Hj [Hp Hc]]]]]]; [now left|].
      right. split; [lia|]. exists s2. rewrite Nat.sub_0_r. split; [exact Hj|].
      replace (Nat.eqb i j) with false by (symmetry; apply Nat.eqb_neq; lia).
      rewrite Hu, Hp, Hc. apply Nat.eqb_neq in Hji. rewrite Hji.
      reflexivity.
Qed.

End GrouperProofs.

(* ================================================================== *)
(** ** Colour boxes: size filter and stacked-box split *)
(* ================================================================== *)

Module ColorBoxProofs.

Import ColorGeometry ColorBoxes.

(** The percentage tests of [box_is_valid], cleared of the division. *)
Lemma pct_lower (c : Q) (a W : Z) :
  0 < W -> Qle_bool c (inject_Z a / inject_Z W * 100) = true ->
  (c * inject_Z W <= inject_Z (a * 100))%Q.
Proof.
  intros HW H. apply Qle_bool_iff in H.
  assert (QW : (0 < inject_Z W)%Q) by (unfold Qlt; simpl; lia).
  apply (Qmult_le_compat_r _ _ (inject_Z W)) in H; [|apply Qlt_le_weak, QW].
  eapply Qle_trans; [exact H|]. apply Qle_lteq. right.
  rewrite inject_Z_mult. field. intros E. rewrite E in QW. apply (Qlt_irrefl 0 QW).
Qed.

Lemma pct_upper (c : Q) (a W : Z) :
  0 < W -> Qle_bool (inject_Z a / inject_Z W * 100) c = true ->
  (inject_Z (a * 100) <= c * inject_Z W)%Q.
Proof.
  intros HW H. apply Qle_bool_iff in H.
  assert (QW : (0 < inject_Z W)%Q) by (unfold Qlt; simpl; lia).
  apply (Qmult_le_compat_r _ _ (inject_Z W)) in H; [|apply Qlt_le_weak, QW].
  eapply Qle_trans; [|exact H]. apply Qle_lteq. right.
  rewrite inject_Z_mult. field. intros E. rewrite E in QW. apply (Qlt_irrefl 0 QW).
Qed.

Lemma box_is_valid_bounds (W H : Z) (b : rect) :
  0 < W -> 0 < H -> box_is_valid W H b = true ->
  let '(x, y, w, h) := b in
  0 < w /\ 0 < h /\ 3 * W <= 1000 * w /\ 100 * w <= 5 * W /\ H <= 500 * h /\ 100 * h <= 3 * H.
Proof.
  destruct b as [[[x y] w] h]. intros HW HH. unfold box_is_valid.
  destruct (Qle_bool MIN_BOX_WIDTH_PERCENT _) eqn:E1; [|discriminate].
  destruct (Qle_bool _ MAX_BOX_WIDTH_PERCENT) eqn:E2; [|discriminate].
  destruct (Qle_bool MIN_BOX_HEIGHT_PERCENT _) eqn:E3; [|discriminate].
  destruct (Qle_bool _ MAX_BOX_HEIGHT_PERCENT) eqn:E4; [|discriminate].
  intros _.
  apply pct_lower in E1; [|exact HW]. apply pct_upper in E2; [|exact HW].
  apply pct_lower in E3; [|exact HH]. apply pct_upper in E4; [|exact HH].
  unfold MIN_BOX_WIDTH_PERCENT, MAX_BOX_WIDTH_PERCENT, MIN_BOX_HEIGHT_PERCENT,
    MAX_BOX_HEIGHT_PERCENT, Qle, Qmult, inject_Z in *. cbn [Qnum Qden Pos.mul] in *. lia.
Qed.

Lemma range_nth (n : Z) (i : nat) (v : Z) :
  nth_error (range n) i = Some v -> v = Z.of_nat i /\ (i < Z.to_nat n)%nat.
Proof.
  unfold range. rewrite nth_error_map, nth_error_seq. intros H.
  destruct (Nat.ltb i (Z.to_nat n)) eqn:E; [|discriminate].
  injection H as <-. apply Nat.ltb_lt in E. split; [reflexivity|exact E].
Qed.

Lemma div_add_le (a b k : Z) : 0 < k -> 0 <= a -> 0 <= b -> a / k + b / k <= (a + b) / k.
Proof.
  intros Hk Ha Hb. apply Z.div_le_lower_bound; [exact Hk|].
  pose proof (Z.mul_div_le a k Hk). pose proof (Z.mul_div_le b k Hk). lia.
Qed.

Lemma py_round_div_le (n d : Z) : py_round_div n d <= n / d + 1.
Proof.
  unfold py_round_div.
  destruct (2 * (n mod d) <? d); [lia|].
  destruct (d <? 2 * (n mod d)); [lia|]. destruct (Z.even (n / d)); lia.
Qed.

(** The stacked-box split of a tall box, as [map] over [range]. *)
Lemma split_shape (x y w h s : Z) :
  detect_stacked_boxes (x, y, w, h) s = [(x, y, w, h)]
  \/ (1 < py_round_div h s /\ 3 * s < 2 * h /\
      detect_stacked_boxes (x, y, w, h) s
      = map (fun i => (x, Z.quot (y * py_round_div h s + i * h) (py_round_div h s), w,
                       Z.quot h (py_round_div h s))) (range (py_round_div h s))).
Proof.
  unfold detect_stacked_boxes.
  destruct (3 * s <? 2 * h) eqn:E1; [|now left].
  destruct (1 <? py_round_div h s) eqn:E2; [|now left].
  right. apply Z.ltb_lt in E1, E2. auto.
Qed.


(** The boxes [detect_stacked_boxes] returns keep the box's [x] and [w],
    lie within its vertical extent, and follow one another top to bottom
    without overlap. *)
Theorem stacked_split_inside_ordered (x y w h s : Z) :
  0 < s -> 0 <= y -> 0 <= h ->
  let L := detect_stacked_boxes (x, y, w, h) s in
  (forall b, In b L ->
     let '(x', y', w', h') := b in x' = x /\ w' = w /\ y <= y' /\ y' + h' <= y + h)
  /\ (forall i j bi bj, (i < j)%nat -> nth_error L i = Some bi -> nth_error L j = Some bj ->
        let '(_, yi, _, hi) := bi in let '(_, yj, _, _) := bj in yi + hi <= yj).
Proof.
  intros Hs Hy Hh. cbv zeta.
  destruct (split_shape x y w h s) as [E|(Hk & _ & E)]; rewrite E.
  - split.
    + intros b [<-|[]]. lia.
    + intros i j bi bj Hij Hi Hj. destruct j as [|j]; [lia|]. simpl in Hj.
      destruct j; discriminate.
  - set (k := py_round_div h s) in *.
    assert (Hq : forall a, 0 <= a -> Z.quot a k = a / k)
      by (intros a Ha; apply Z.quot_div_nonneg; lia).
    assert (Hyk : (y * k) / k = y) by (apply Z.div_mul; lia).
    assert (Hkh : (y * k + k * h) / k = y + h)
      by (replace (y * k + k * h) with ((y + h) * k) by ring; apply Z.div_mul; lia).
    assert (Hbound : forall i, 0 <= i -> i < k ->
              (y * k + i * h) / k + h / k <= (y * k + (i + 1) * h) / k).
    { intros i Hi Hik. replace (y * k + (i + 1) * h) with ((y * k + i * h) + h) by ring.
      apply div_add_le; nia. }
    assert (Hmono : forall a b, a <= b -> a / k <= b / k)
      by (intros a b Hab; apply Z.div_le_mono; lia).
    split.
    + intros b Hb. apply in_map_iff in Hb as [i [<- Hi]].
      unfold range in Hi. apply in_map_iff in Hi as [n [<- Hn]]. apply in_seq in Hn.
      rewrite !Hq by nia.
      split; [reflexivity|]. split; [reflexivity|]. split.
      * rewrite <- Hyk at 1. apply Hmono. nia.
      * eapply Z.le_trans; [apply Hbound; lia|]. rewrite <- Hkh. apply Hmono. nia.
    + intros i j bi bj Hij Hi Hj.
      rewrite nth_error_map in Hi, Hj.
      destruct (nth_error (range k) i) as [vi|] eqn:Ei; [|discriminate].
      destruct (nth_error (range k) j) as [vj|] eqn:Ej; [|discriminate].
      apply range_nth in Ei as [-> Ei]. apply range_nth in Ej as [-> Ej].
      injection Hi as <-. injection Hj as <-.
      rewrite !Hq by nia.
      eapply Z.le_trans; [apply Hbound; lia|]. apply Hmono. nia.
Qed.


Lemma stacked_split_inside_ordered_witness :
  0 < 40 /\ 0 <= 7 /\ 0 <= 130 /\
  (forall b, In b (detect_stacked_boxes (5, 7, 30, 130) 40) ->
     let '(x', y', w', h') := b in x' = 5 /\ w' = 30 /\ 7 <= y' /\ y' + h' <= 7 + 130)
  /\ (forall i j bi bj, (i < j)%nat ->
        nth_error (detect_stacked_boxes (5, 7, 30, 130) 40) i = Some bi ->
        nth_error (detect_stacked_boxes (5, 7, 30, 130) 40) j = Some bj ->
        let '(_, yi, _, hi) := bi in let '(_, yj, _, _) := bj in yi + hi <= yj).
Proof.
  split; [lia|]. split; [lia|]. split; [lia|].
  exact (stacked_split_inside_ordered 5 7 30 130 40 ltac:(lia) ltac:(lia) ltac:(lia)).
Defined.

(** Every box [detect_color_boxes] returns, split or not, has a positive
    size, a width between 0.3% and 5% of the image width, and a height of
    at most 3% of the image height. *)
Theorem color_boxes_sizes (W H : Z) (contour_rects : list rect) :
  0 < W -> 0 < H ->
  forall b, In b (detect_color_boxes W H contour_rects) ->
  let '(x, y, w, h) := b in
  0 < w /\ 0 < h /\ 3 * W <= 1000 * w /\ 100 * w <= 5 * W /\ 100 * h <= 3 * H.
Proof.
  intros HW HH b Hb. unfold detect_color_boxes in Hb.
  apply in_flat_map in Hb as [[[[x y] w] h] [Hv Hb]].
  apply filter_In in Hv as [_ Hv].
  apply box_is_valid_bounds in Hv; [|exact HW|exact HH].
  destruct Hv as (Hw & Hh & Hw1 & Hw2 & Hh1 & Hh2).
  destruct (split_shape x y w h STANDARD_SIGN_HEIGHT_PIXELS) as [E|(Hk & Hgt & E)];
    rewrite E in Hb.
  - destruct Hb as [<-|[]]. lia.
  - apply in_map_iff in Hb as [i [<- _]].
    set (k := py_round_div h STANDARD_SIGN_HEIGHT_PIXELS) in *.
    assert (Hkh : k <= h).
    { pose proof (py_round_div_le h STANDARD_SIGN_HEIGHT_PIXELS). fold k in H0.
      unfold STANDARD_SIGN_HEIGHT_PIXELS in *.
      pose proof (Z.mul_div_le h 40 ltac:(lia)). lia. }
    assert (Hq : 1 <= Z.quot h k).
    { rewrite Z.quot_div_nonneg by lia. apply Z.div_le_lower_bound; lia. }
    assert (Hq' : Z.quot h k <= h).
    { rewrite Z.quot_div_nonneg by lia. apply Z.div_le_upper_bound; nia. }
    lia.
Qed.


Lemma color_boxes_sizes_witness :
  0 < 1000 /\ 0 < 4000 /\
  detect_color_boxes 1000 4000 [(10, 10, 50, 100)] = [(10, 10, 50, 50); (10, 60, 50, 50)] /\
  (0 < 50 /\ 0 < 50 /\ 3 * 1000 <= 1000 * 50 /\ 100 * 50 <= 5 * 1000 /\ 100 * 50 <= 3 * 4000).
Proof.
  split; [lia|]. split; [lia|]. split; [vm_compute; reflexivity|].
  exact (color_boxes_sizes 1000 4000 [(10, 10, 50, 100)] ltac:(lia) ltac:(lia)
           (10, 60, 50, 50) ltac:(vm_compute; right; left; reflexivity)).
Defined.

(** In an image at most 2000 pixels high no valid box is split: the
    result of [detect_color_boxes] is the list of valid boxes itself. *)
Theorem short_images_never_split (W H : Z) (contour_rects : list rect) :
  0 < W -> 0 < H -> H <= 2000 ->
  detect_color_boxes W H contour_rects = filter (box_is_valid W H) contour_rects.
Proof.
  intros HW HH H2. unfold detect_color_boxes.
  induction contour_rects as [|b bs IH]; [reflexivity|]. simpl.
  destruct (box_is_valid W H b) eqn:Hv; [|exact IH].
  simpl. rewrite IH. f_equal.
  destruct b as [[[x y] w] h].
  apply box_is_valid_bounds in Hv; [|exact HW|exact HH].
  unfold detect_stacked_boxes, STANDARD_SIGN_HEIGHT_PIXELS.
  replace (3 * 40 <? 2 * h) with false by (symmetry; apply Z.ltb_ge; lia).
  reflexivity.
Qed.

Lemma short_images_never_split_witness :
  0 < 1000 /\ 0 < 1000 /\ 1000 <= 2000 /\
  detect_color_boxes 1000 1000 [(10, 10, 20, 20); (0, 0, 1, 1); (40, 40, 30, 30)]
  = [(10, 10, 20, 20); (40, 40, 30, 30)].
Proof.
  split; [lia|]. split; [lia|]. split; [lia|].
  rewrite (short_images_never_split 1000 1000 _ ltac:(lia) ltac:(lia) ltac:(lia)).
  vm_compute. reflexivity.
Defined.

End ColorBoxProofs.

(* ================================================================== *)
(** ** Strip and [_clean_sign_number] *)
(* ================================================================== *)

Module CleanProofs.

Import PyStr OcrEnsemble.

Lemma list_ascii_of_string_app (a b : string) :
  list_ascii_of_string (a ++ b) = list_ascii_of_string a ++ list_ascii_of_string b.
Proof. induction a as [|c a IH]; simpl; [reflexivity|]. now rewrite IH. Qed.

Lemma drop_while_head (p : ascii -> bool) (l : list ascii) :
  forall c rest, drop_while p l = c :: rest -> p c = false.
Proof.
  induction l as [|d l IH]; simpl; intros c rest H; [discriminate|].
  destruct (p d) eqn:E; [now apply (IH c rest)|]. injection H as <- _. exact E.
Qed.

Lemma drop_while_suffix (p : ascii -> bool) (l : list ascii) :
  exists pre, l = pre ++ drop_while p l.
Proof.
  induction l as [|d l [pre IH]]; simpl; [now exists []|].
  destruct (p d); [exists (d :: pre); simpl; now f_equal|now exists []].
Qed.

Lemma drop_while_id (p : ascii -> bool) (l : list ascii) :
  (forall c rest, l = c :: rest -> p c = false) -> drop_while p l = l.
Proof. destruct l as [|c l]; simpl; [reflexivity|]. intros H. now rewrite (H c l eq_refl). Qed.

(** The characters [strip_by p s] is made of: no character satisfying [p]
    at either end. *)
Lemma strip_by_ends (p : ascii -> bool) (s : string) :
  (forall c rest, list_ascii_of_string (strip_by p s) = c :: rest -> p c = false)
  /\ (forall pre c, list_ascii_of_string (strip_by p s) = pre ++ [c] -> p c = false).
Proof.
  unfold strip_by. rewrite list_ascii_of_string_of_list_ascii.
  set (m := drop_while p (list_ascii_of_string s)).
  set (n := drop_while p (rev m)).
  destruct (drop_while_suffix p (rev m)) as [pre Hpre]. fold n in Hpre.
  split.
  - intros c rest Hr.
    assert (Hm : m = rev n ++ rev pre)
      by (rewrite <- (rev_involutive m), Hpre, rev_app_distr; reflexivity).
    rewrite Hr in Hm. simpl in Hm. unfold m in Hm. eapply drop_while_head. exact Hm.
  - intros pre' c Hr. apply (f_equal (@rev ascii)) in Hr.
    rewrite rev_involutive, rev_app_distr in Hr. simpl in Hr.
    eapply drop_while_head. exact Hr.
Qed.

Lemma strip_by_idem (p : ascii -> bool) (s : string) :
  strip_by p (strip_by p s) = strip_by p s.
Proof.
  destruct (strip_by_ends p s) as [H1 H2].
  unfold strip_by at 1. rewrite (drop_while_id p _ H1).
  set (r := list_ascii_of_string (strip_by p s)) in *.
  rewrite drop_while_id.
  - rewrite rev_involutive. unfold r. apply string_of_list_ascii_of_string.
  - intros c rest Hc. apply (H2 (rev rest)). rewrite <- (rev_involutive r), Hc. reflexivity.
Qed.


(** [_clean_sign_number] is idempotent: cleaning a cleaned label changes
    nothing. *)
Theorem clean_sign_number_idempotent (t : string) :
  clean_sign_number (clean_sign_number t) = clean_sign_number t.
Proof.
  remember (clean_sign_number t) as c eqn:Hc. unfold clean_sign_number in Hc.
  destruct (any_digit (strip_dots t)) eqn:Hd; [|subst c; reflexivity].
  destruct (List.length (split_on "."%char (strip_dots t)) <=? 2)%nat eqn:Hl;
    [|subst c; reflexivity].
  subst c. unfold clean_sign_number, strip_dots. fold (strip_dots t).
  unfold strip_dots in Hd, Hl. rewrite strip_by_idem, Hd, Hl. reflexivity.
Qed.

(** A cleaned label is empty, or it holds a digit and at most one dot,
    and neither starts nor ends with a dot. *)
Theorem clean_sign_number_shape (t : string) :
  clean_sign_number t = EmptyString
  \/ (any_digit (clean_sign_number t) = true
      /\ (count_char "."%char (clean_sign_number t) <= 1)%nat
      /\ (forall rest, clean_sign_number t <> String "."%char rest)
      /\ (forall pre, clean_sign_number t <> (pre ++ "."%string)%string)).
Proof.
  unfold clean_sign_number.
  destruct (any_digit (strip_dots t)) eqn:Hd; [|now left].
  destruct (List.length (split_on "."%char (strip_dots t)) <=? 2)%nat eqn:Hl; [|now left].
  right. rewrite OcrProofs.split_on_length in Hl. apply Nat.leb_le in Hl.
  destruct (strip_by_ends (fun c => Ascii.eqb c "."%char) t) as [H1 H2].
  fold (strip_dots t) in H1, H2.
  split; [exact Hd|]. split; [lia|]. split.
  - intros rest E. rewrite E in H1. specialize (H1 "."%char (list_ascii_of_string rest) eq_refl).
    discriminate.
  - intros pre E. rewrite E, list_ascii_of_string_app in H2.
    specialize (H2 (list_ascii_of_string pre) "."%char eq_refl). discriminate.
Qed.


End CleanProofs.

(* ================================================================== *)
(** ** The colour pipeline's page loop ([process_pdf]) *)
(* ================================================================== *)

Module ColorPdfProofs.

Import ColorGeometry OcrEnsemble ColorBoxes PyBuiltins.

Lemma enumerate_snd {A} (k : Z) (l : list A) : map snd (enumerate k l) = l.
Proof. revert k. induction l as [|a l IH]; intros k; simpl; [reflexivity|]. now rewrite IH. Qed.

Lemma enumerate_fst {A} (k : nat) (l : list A) :
  map fst (enumerate (Z.of_nat k) l) = map Z.of_nat (seq k (List.length l)).
Proof.
  revert k. induction l as [|a l IH]; intros k; simpl; [reflexivity|].
  f_equal. replace (Z.of_nat k + 1) with (Z.of_nat (S k)) by lia. apply IH.
Qed.

Lemma Forall2_map_enumerate {A B} (R : A -> B -> Prop) (f : Z * A -> B) (k : Z) (l : list A) :
  (forall n a, R a (f (n, a))) -> Forall2 R l (map f (enumerate k l)).
Proof.
  intros H. revert k. induction l as [|a l IH]; intros k; simpl; constructor; auto.
Qed.


Lemma process_boxes_length i2s i2d (W H : Z) (boxes : list rect) :
  (List.length (process_boxes i2s i2d W H boxes) <= List.length boxes)%nat.
Proof.
  induction boxes as [|b bs IH]; simpl; [lia|].
  destruct (extract_sign_number i2s i2d b); simpl; lia.
Qed.

(** The entry [process_pdf] adds to [page_results] for one page. *)
Definition color_page_entry ocr_string ocr_data round2 (pi : Z * page_image) : color_page_result :=
  let '(page_num, image) := pi in
  let detections := fst (process_image ocr_string ocr_data image page_num) in
  mk_color_page_result page_num (Z.of_nat (List.length detections))
    (map (to_dict round2) detections).

Lemma process_pdf_fold ocr_string ocr_data round2 (l : list (Z * page_image)) :
  forall acc, fold_left (add_image ocr_string ocr_data round2) l acc
  = mk_color_results
      (c_total_signs_detected acc
       + fold_right Z.add 0 (map cp_signs_detected (map (color_page_entry ocr_string ocr_data round2) l)))
      (c_pages acc ++ map (color_page_entry ocr_string ocr_data round2) l).
Proof.
  induction l as [|[n img] l IH]; intros acc; simpl.
  - destruct acc; simpl. now rewrite Z.add_0_r, app_nil_r.
  - rewrite IH. unfold add_image, process_image. simpl. f_equal.
    + lia.
    + now rewrite <- app_assoc.
Qed.

(** The results of [process_pdf]: the total is the sum of the pages'
    counts; the pages are numbered 1, 2, ... in order, one entry per
    image; each page's count is the number of its detections, which is
    at most the number of boxes [detect_color_boxes] found on it. *)
Theorem process_pdf_counts ocr_string ocr_data round2 (images : list page_image) :
  let r := process_pdf ocr_string ocr_data round2 images in
  c_total_signs_detected r = fold_right Z.add 0 (map cp_signs_detected (c_pages r))
  /\ map cp_page (c_pages r) = map Z.of_nat (seq 1 (List.length images))
  /\ Forall2 (fun img pr =>
        cp_signs_detected pr = Z.of_nat (List.length (cp_signs pr))
        /\ (List.length (cp_signs pr)
            <= List.length (detect_color_boxes (image_width img) (image_height img)
                              (contour_rects img)))%nat)
      images (c_pages r).
Proof.
  cbv zeta. unfold process_pdf. rewrite process_pdf_fold. simpl.
  split; [reflexivity|]. split.
  - rewrite map_map. change 1 with (Z.of_nat 1). rewrite <- enumerate_fst.
    apply map_ext. now intros [n img].
  - apply Forall2_map_enumerate. intros n img. simpl. rewrite length_map.
    split; [reflexivity|]. apply process_boxes_length.
Qed.


End ColorPdfProofs.

(* ================================================================== *)
(** ** Embedded-text extractor: hotspots and labels *)
(* ================================================================== *)

Module TextExtraProofs.

Import PyStr EmbeddedText Atl06 CleanProofs.

(** A page with a label in its structured layer, and a plain-text block
    repeating it beside a second label. *)
Definition sample_page : page_layer :=
  mk_page_layer 1000 1000
    [mk_dict_block 0 [[mk_span " 2001.1 " (100, 200, 110, 205)%Q]]]
    [(0%Q, 0%Q, 50%Q, 10%Q, (" 2001.1" ++ String "010"%char " 2002.3 ")%string, 0, 0)].

Definition no_sign : sign_hotspot := make_hotspot "" 0 0 0 0 0 1 1.

Lemma fold_left_invariant_in {A B} (f : A -> B -> A) (P : A -> Prop) (l : list B) :
  (forall a b, In b l -> P a -> P (f a b)) -> forall a, P a -> P (fold_left f l a).
Proof.
  induction l as [|b l IH]; intros Hf a Ha; simpl; [exact Ha|].
  apply IH; [intros a' b' Hb'; apply Hf; now right|]. apply Hf; [now left|exact Ha].
Qed.

(** Every sign of the page is built by [make_hotspot] from the page's
    size, for the page number given. *)
Lemma extracted_from_make_hotspot (p : page_layer) (page_num : Z) :
  forall s, In s (extract_signs_from_page p page_num) ->
  exists sn tx ty tw th,
    s = make_hotspot sn page_num tx ty tw th (page_width p) (page_height p).
Proof.
  set (P := fun acc : list sign_hotspot => forall s, In s acc ->
              exists sn tx ty tw th,
                s = make_hotspot sn page_num tx ty tw th (page_width p) (page_height p)).
  change (P (extract_signs_from_page p page_num)).
  unfold extract_signs_from_page. apply fold_left_invariant_in.
  - intros acc [[[[[[x0 y0] x1] y1] txt] bno] bty] _ Hacc. unfold fallback_block.
    apply fold_left_invariant_in; [|exact Hacc].
    intros acc' ln _ Hacc'. unfold fallback_line.
    destruct (sign_match (py_strip ln)) as [sn|]; [|exact Hacc'].
    destruct (existsb _ acc'); [exact Hacc'|].
    intros s Hs. apply in_app_iff in Hs as [Hs|[<-|[]]]; [now apply Hacc'|].
    eexists _, _, _, _, _. reflexivity.
  - intros s Hs. unfold structured_walk in Hs.
    apply in_flat_map in Hs as [blk [_ Hs]].
    destruct (Z.eqb (block_type blk) 0); [|destruct Hs].
    apply in_flat_map in Hs as [ln [_ Hs]]. apply in_flat_map in Hs as [sp [_ Hs]].
    unfold span_signs in Hs. destruct (sign_match (py_strip (span_text sp))); [|destruct Hs].
    destruct (span_bbox sp) as [[[b0 b1] b2] b3].
    destruct Hs as [<-|[]]. eexists _, _, _, _, _. reflexivity.
Qed.

(** Every hotspot the page extractor emits is the text box grown by 30%
    of its size on each side: it has the text box's centre and 1.6 times
    its width and height, as percentages of the page. It carries the page
    number given and the confidence ["embedded"]. *)
Theorem hotspot_centered_on_text (p : page_layer) (page_num : Z) :
  forall s, In s (extract_signs_from_page p page_num) ->
  hotspot_x_percentage s + hotspot_width_percentage s / 2
    == (text_x s + text_width s / 2) / page_width p * 100
  /\ hotspot_y_percentage s + hotspot_height_percentage s / 2
    == (text_y s + text_height s / 2) / page_height p * 100
  /\ hotspot_width_percentage s == (8 # 5) * (text_width s / page_width p * 100)
  /\ hotspot_height_percentage s == (8 # 5) * (text_height s / page_height p * 100)
  /\ page s = page_num /\ confidence s = "embedded"%string.
Proof.
  intros s Hs. apply extracted_from_make_hotspot in Hs as (sn & tx & ty & tw & th & ->).
  unfold make_hotspot, HOTSPOT_EXPANSION.
  cbn [hotspot_x_percentage hotspot_y_percentage hotspot_width_percentage
       hotspot_height_percentage text_x text_y text_width text_height page confidence].
  unfold Qdiv.
  change (/ 2)%Q with (1 # 2)%Q. split; [ring|]. split; [ring|]. split; [ring|]. split; [ring|]. auto.
Qed.


Lemma hotspot_centered_on_text_witness :
  exists s, In s (extract_signs_from_page sample_page 1) /\ sign_number s = "2001.1"%string
  /\ hotspot_x_percentage s + hotspot_width_percentage s / 2
      == (text_x s + text_width s / 2) / page_width sample_page * 100
  /\ hotspot_y_percentage s + hotspot_height_percentage s / 2
      == (text_y s + text_height s / 2) / page_height sample_page * 100
  /\ hotspot_width_percentage s == (8 # 5) * (text_width s / page_width sample_page * 100)
  /\ hotspot_height_percentage s == (8 # 5) * (text_height s / page_height sample_page * 100)
  /\ page s = 1 /\ confidence s = "embedded"%string.
Proof.
  set (s := nth 0 (extract_signs_from_page sample_page 1) no_sign).
  assert (Hin : In s (extract_signs_from_page sample_page 1)) by (vm_compute; left; reflexivity).
  exists s. split; [exact Hin|]. split; [vm_compute; reflexivity|].
  exact (hotspot_centered_on_text sample_page 1 s Hin).
Defined.

Lemma span_digits_app (r : string) : (fst (span_digits r) ++ snd (span_digits r))%string = r.
Proof.
  induction r as [|c r IH]; [reflexivity|]. simpl.
  destruct (is_digit c); [|reflexivity].
  destruct (span_digits r) as [ds r']. simpl in *. now rewrite IH.
Qed.

Lemma append_empty_r (s : string) : (s ++ EmptyString)%string = s.
Proof. induction s as [|c s IH]; simpl; [reflexivity|]. now rewrite IH. Qed.

Lemma at_end_cases (s : string) : at_end s = true -> s = EmptyString \/ s = String "010"%char EmptyString.
Proof.
  destruct s as [|c [|d s]]; simpl; try discriminate; [now left|].
  intros H. apply Ascii.eqb_eq in H. subst. now right.
Qed.

(** What [SIGN_PATTERN] captures is the whole text, but for a newline
    the anchor [$] lets it end with. *)
Lemma sign_match_whole (t g : string) :
  sign_match t = Some g -> t = g \/ t = (g ++ String "010"%char EmptyString)%string.
Proof.
  destruct t as [|d1 [|d2 [|d3 [|d4 rest]]]]; simpl; try discriminate.
  destruct (is_digit d1 && is_digit d2 && is_digit d3 && is_digit d4); [|discriminate].
  destruct rest as [|c r].
  - intros H. injection H as <-. now left.
  - destruct (Ascii.eqb c "."%char) eqn:Ec.
    + pose proof (span_digits_app r) as Hr.
      destruct (span_digits r) as [ds r'] eqn:Es. simpl in Hr.
      destruct (negb (OcrEnsemble.is_empty ds) && at_end r') eqn:Ee.
      * intros H. injection H as <-. apply andb_true_iff in Ee as [_ Ee].
        apply Ascii.eqb_eq in Ec. subst c r.
        destruct (at_end_cases r' Ee) as [->| ->]; [left|right]; simpl;
          [now rewrite append_empty_r|reflexivity].
      * destruct (at_end (String c r)) eqn:Ea; [|discriminate]. intros H. injection H as <-.
        destruct (at_end_cases _ Ea) as [H|H]; [discriminate|]. rewrite H. now right.
    + destruct (at_end (String c r)) eqn:Ea; [|discriminate]. intros H. injection H as <-.
      destruct (at_end_cases _ Ea) as [H|H]; [discriminate|]. rewrite H. now right.
Qed.

Lemma sign_match_stripped (s g : string) : sign_match (py_strip s) = Some g -> g = py_strip s.
Proof.
  intros H. destruct (sign_match_whole _ _ H) as [E|E]; [now symmetry|].
  exfalso. destruct (strip_by_ends is_space s) as [_ H2].
  fold (py_strip s) in H2. rewrite E, list_ascii_of_string_app in H2.
  specialize (H2 _ _ eq_refl). discriminate.
Qed.

(** Every label the page extractor emits is the stripped text of a span
    of a text block (type 0) of the structured layer, or a stripped line
    of a stripped plain-text block: a newline the pattern's [$] admits is
    never part of it. *)
Theorem emitted_labels_are_stripped_text (p : page_layer) (page_num : Z) :
  forall s, In s (extract_signs_from_page p page_num) ->
  (exists blk ln sp, In blk (dict_blocks p) /\ block_type blk = 0 /\ In ln (block_lines blk)
                     /\ In sp ln /\ sign_number s = py_strip (span_text sp))
  \/ (exists x0 y0 x1 y1 txt bno bty ln,
        In (x0, y0, x1, y1, txt, bno, bty) (text_blocks p)
        /\ In ln (split_on "010"%char (py_strip txt)) /\ sign_number s = py_strip ln).
Proof.
  set (A := fun s => exists blk ln sp, In blk (dict_blocks p) /\ block_type blk = 0
                     /\ In ln (block_lines blk) /\ In sp ln /\ sign_number s = py_strip (span_text sp)).
  set (B := fun s => exists x0 y0 x1 y1 txt bno bty ln,
        In (x0, y0, x1, y1, txt, bno, bty) (text_blocks p)
        /\ In ln (split_on "010"%char (py_strip txt)) /\ sign_number s = py_strip ln).
  set (P := fun acc : list sign_hotspot => forall s, In s acc -> A s \/ B s).
  change (P (extract_signs_from_page p page_num)).
  unfold extract_signs_from_page. apply fold_left_invariant_in.
  - intros acc [[[[[[x0 y0] x1] y1] txt] bno] bty] Hblk Hacc. unfold fallback_block.
    apply fold_left_invariant_in; [|exact Hacc].
    intros acc' ln Hln Hacc'. unfold fallback_line.
    destruct (sign_match (py_strip ln)) as [sn|] eqn:Hm; [|exact Hacc'].
    destruct (existsb _ acc'); [exact Hacc'|].
    intros s Hs. apply in_app_iff in Hs as [Hs|[<-|[]]]; [now apply Hacc'|].
    right. exists x0, y0, x1, y1, txt, bno, bty, ln. split; [exact Hblk|]. split; [exact Hln|].
    simpl. now apply sign_match_stripped.
  - intros s Hs. left. unfold structured_walk in Hs.
    apply in_flat_map in Hs as [blk [Hblk Hs]].
    destruct (Z.eqb (block_type blk) 0) eqn:Ht; [|destruct Hs].
    apply in_flat_map in Hs as [ln [Hln Hs]]. apply in_flat_map in Hs as [sp [Hsp Hs]].
    unfold span_signs in Hs. destruct (sign_match (py_strip (span_text sp))) as [sn|] eqn:Hm;
      [|destruct Hs].
    destruct (span_bbox sp) as [[[b0 b1] b2] b3].
    destruct Hs as [<-|[]]. exists blk, ln, sp. apply Z.eqb_eq in Ht.
    repeat split; try assumption. simpl. now apply sign_match_stripped.
Qed.


Lemma emitted_labels_are_stripped_text_witness :
  exists s, In s (extract_signs_from_page sample_page 1) /\ sign_number s = "2002.3"%string
  /\ ((exists blk ln sp, In blk (dict_blocks sample_page) /\ block_type blk = 0
        /\ In ln (block_lines blk) /\ In sp ln /\ sign_number s = py_strip (span_text sp))
      \/ (exists x0 y0 x1 y1 txt bno bty ln,
            In (x0, y0, x1, y1, txt, bno, bty) (text_blocks sample_page)
            /\ In ln (split_on "010"%char (py_strip txt)) /\ sign_number s = py_strip ln)).
Proof.
  set (s := nth 1 (extract_signs_from_page sample_page 1) no_sign).
  assert (Hin : In s (extract_signs_from_page sample_page 1))
    by (vm_compute; right; left; reflexivity).
  exists s. split; [exact Hin|]. split; [vm_compute; reflexivity|].
  exact (emitted_labels_are_stripped_text sample_page 1 s Hin).
Defined.

Lemma atl06_pattern_match_sign_match (t : string) :
  atl06_pattern_match t = match sign_match t with Some _ => true | None => false end.
Proof.
  destruct t as [|d1 [|d2 [|d3 [|d4 rest]]]]; try reflexivity.
  unfold atl06_pattern_match, sign_match.
  destruct (is_digit d1 && is_digit d2 && is_digit d3 && is_digit d4); [|reflexivity].
  rewrite andb_true_l.
  destruct rest as [|c r]; [reflexivity|].
  destruct (Ascii.eqb c "."%char); [|destruct (at_end (String c r)); reflexivity].
  rewrite andb_true_l.
  destruct (span_digits r) as [ds r']. cbv beta iota.
  destruct (negb (OcrEnsemble.is_empty ds) && at_end r'); [reflexivity|].
  rewrite orb_false_l. destruct (at_end (String c r)); reflexivity.
Qed.

Lemma flat_map_filter_map {A B C D} (g : A -> list B) (g' : A -> list C)
    (f : B -> D) (h : C -> D) (q : D -> bool) (l : list A) :
  (forall a, In a l -> map f (g a) = filter q (map h (g' a))) ->
  map f (flat_map g l) = filter q (map h (flat_map g' l)).
Proof.
  induction l as [|a l IH]; intros H; simpl; [reflexivity|].
  rewrite !map_app, filter_app, H by (now left). f_equal. apply IH. intros a' Ha'. apply H. now right.
Qed.


(** The ATL06 extractor's labels are those of the structured walk of the
    embedded-text extractor on the same page, in the same order, less
    every ["0000"]: the two patterns accept the same stripped span texts
    and capture the whole of them. *)
Theorem atl06_labels_match_structured_walk (round2 : Q -> Q) (p : page_layer)
    (page_number page_num : Z) :
  map a_sign_number (extract_text_from_page round2 p page_number)
  = filter (fun l => negb (String.eqb l "0000")) (map sign_number (structured_walk p page_num)).
Proof.
  unfold extract_text_from_page, structured_walk.
  apply flat_map_filter_map. intros blk _.
  destruct (Z.eqb (block_type blk) 0); [|reflexivity].
  apply flat_map_filter_map. intros ln _.
  apply flat_map_filter_map. intros sp _.
  unfold atl06_span, span_signs. rewrite atl06_pattern_match_sign_match.
  destruct (sign_match (py_strip (span_text sp))) as [g|] eqn:Hm; [|reflexivity].
  apply sign_match_stripped in Hm. subst g.
  destruct (span_bbox sp) as [[[b0 b1] b2] b3]. simpl.
  destruct (String.eqb (py_strip (span_text sp)) "0000"); reflexivity.
Qed.


End TextExtraProofs.

(* ================================================================== *)
(** ** The document loop and the grouper's annotations *)
(* ================================================================== *)

Module PdfGroupProofs.

Import PyStr EmbeddedText Grouper GrouperProofs PdfResults PyBuiltins.

(** A page with two labels of one series 1.5% of the page apart. *)
Definition series_page : page_layer :=
  mk_page_layer 1000 1000
    [mk_dict_block 0 [[mk_span "2001.1" (100, 200, 110, 205)%Q];
                      [mk_span "2001.2" (100, 215, 110, 220)%Q]]] [].

Definition no_page : page_result := mk_page_result 0 0 [].

Definition no_gsign : gsign := mk_gsign "" 0 0 None None.

Lemma last_write_group (k : nat) (lab : string) (n : Z) (grp : list nat) :
  last_write k (map (fun j => (j, lab, n)) grp) = if mem k grp then Some (lab, n) else None.
Proof.
  induction grp as [|j grp IH]; simpl; [reflexivity|]. rewrite IH.
  destruct (mem k grp); [now rewrite orb_true_r|]. rewrite orb_false_r. reflexivity.
Qed.

(** The group fields a sign may carry after grouping: none, or a group
    label ["<base> series (<n> signs)"] with [n >= 2] signs, [base]
    followed by a dot starting the sign's label. *)
Definition annotation_ok (s : gsign) : Prop :=
  (group s = None /\ group_size s = None)
  \/ exists base n, group s = Some (group_label base n) /\ group_size s = Some (Z.of_nat n)
                    /\ (2 <= n)%nat /\ String.prefix (base ++ ".") (g_sign_number s) = true.

Lemma seed_prefix (s : string) :
  contains_char "."%char s = true ->
  String.prefix (hd EmptyString (split_on "."%char s) ++ ".") s = true.
Proof.
  unfold contains_char. induction s as [|c s IH]; simpl; [discriminate|].
  destruct (Ascii.eqb c "."%char) eqn:Ec.
  - intros _. apply Ascii.eqb_eq in Ec. subst c. simpl.
    destruct (ascii_dec "."%char "."%char); [|congruence]. destruct s; reflexivity.
  - intros H. simpl in H. specialize (IH H).
    pose proof (OcrProofs.split_on_length "."%char s) as L.
    destruct (split_on "."%char s) as [|w ws] eqn:Esp; [discriminate|]. simpl in *.
    destruct (ascii_dec c c); [exact IH|congruence].
Qed.

Lemma prefix_contains_dot (base s : string) :
  String.prefix (base ++ ".") s = true -> contains_char "."%char s = true.
Proof.
  unfold contains_char. revert s. induction base as [|b base IH]; intros [|c s];
    cbn [append String.prefix count_char]; try discriminate.
  - destruct (ascii_dec "."%char c) as [<-|]; [|intros; discriminate]. intros _. reflexivity.
  - destruct (ascii_dec b c); [|intros; discriminate]. intros H. apply IH in H.
    apply Nat.ltb_lt in H. apply Nat.ltb_lt. lia.
Qed.

Lemma apply_group_ok (signs : list gsign) (base : string) (grp : list nat) :
  (2 <= List.length grp)%nat ->
  (forall j, In j grp -> exists s2, nth_error signs j = Some s2
                 /\ String.prefix (base ++ ".") (g_sign_number s2) = true) ->
  (forall s, In s signs -> annotation_ok s) ->
  forall s, In s (apply_writes (group_writes (group_label base (List.length grp)) grp) signs) ->
  annotation_ok s.
Proof.
  intros Hlen Hgrp Hok s Hs.
  apply In_nth_error in Hs as [k Hk].
  rewrite nth_error_apply_writes in Hk.
  destruct (nth_error signs k) as [s0|] eqn:E0; [|discriminate].
  injection Hk as <-. unfold apply_last, group_writes. rewrite last_write_group.
  destruct (mem k grp) eqn:Hm.
  - apply mem_In in Hm. destruct (Hgrp k Hm) as [s2 [E2 Hp]]. rewrite E0 in E2.
    injection E2 as <-. right. exists base, (List.length grp). simpl. auto.
  - apply Hok. eapply nth_error_In. exact E0.
Qed.

Lemma step_ok t (signs : list gsign) (used : list nat) (i : nat) :
  (forall s, In s signs -> annotation_ok s) ->
  forall s, In s (fst (step t (signs, used) i)) -> annotation_ok s.
Proof.
  intros Hok. unfold step.
  destruct (mem i used); [exact Hok|].
  destruct (nth_error signs i) as [sign1|] eqn:Hn; [|exact Hok].
  set (base := hd EmptyString (split_on "."%char (g_sign_number sign1))).
  destruct (contains_char "."%char (g_sign_number sign1)) eqn:Hs.
  - pose proof (scan_selected t i sign1 base (used ++ [i]) signs 0 [i] [] ltac:(intros x [])) as Hsc.
    rewrite app_nil_r, app_nil_l in Hsc. rewrite Hsc. simpl app.
    set (grp := i :: selected t i sign1 base (used ++ [i]) 0 signs).
    destruct (1 <? List.length grp)%nat eqn:Hl; [|exact Hok].
    apply apply_group_ok; [apply Nat.ltb_lt in Hl; lia| |exact Hok].
    intros j [<-|Hj].
    + exists sign1. split; [exact Hn|]. now apply seed_prefix.
    + apply selected_In in Hj as [_ [s2 [Hj Hjoin]]]. rewrite Nat.sub_0_r in Hj.
      exists s2. split; [exact Hj|]. unfold joins in Hjoin.
      apply andb_true_iff in Hjoin as [Hjoin _]. apply andb_true_iff in Hjoin as [_ Hp]. exact Hp.
  - exact Hok.
Qed.

Lemma group_page_ok t (signs : list gsign) :
  (forall s, In s signs -> annotation_ok s) ->
  forall s, In s (group_page t signs) -> annotation_ok s.
Proof.
  intros Hok. unfold group_page. destruct (List.length signs <? 2)%nat; [exact Hok|].
  set (P := fun st : list gsign * list nat => forall s, In s (fst st) -> annotation_ok s).
  change (P (fold_left (step t) (seq 0 (List.length signs)) (signs, []))).
  apply EmbeddedProofs.fold_left_invariant; [|exact Hok].
  intros [L u] i HL. exact (step_ok t L u i HL).
Qed.

Lemma group_page_keys t (signs : list gsign) : keys (group_page t signs) = keys signs.
Proof.
  destruct (group_page_writes t signs) as [ws [E _]]. rewrite E. apply apply_writes_keys.
Qed.


Lemma Forall2_map_self {A B} (R : A -> B -> Prop) (f : A -> B) (l : list A) :
  (forall a, R a (f a)) -> Forall2 R l (map f l).
Proof. intros H. induction l as [|a l IH]; simpl; constructor; auto. Qed.

Definition pdf_page_entry round2 (pp : Z * page_layer) : page_result :=
  let '(page_num, p) := pp in
  let page_signs := extract_signs_from_page p page_num in
  mk_page_result page_num (Z.of_nat (List.length page_signs)) (map (sign_entry round2) page_signs).

Lemma pdf_fold round2 (l : list (Z * page_layer)) :
  forall acc, fold_left (add_page round2) l acc
  = mk_pdf_results
      (total_signs_detected acc
       + fold_right Z.add 0 (map pr_signs_detected (map (pdf_page_entry round2) l)))
      (pages acc ++ map (pdf_page_entry round2) l).
Proof.
  induction l as [|[n p] l IH]; intros acc; simpl.
  - destruct acc; simpl. now rewrite Z.add_0_r, app_nil_r.
  - rewrite IH. simpl. f_equal.
    + lia.
    + now rewrite <- app_assoc.
Qed.

(** The results of [extract_signs_from_pdf]: the total is the sum of the
    pages' sign counts; one entry per page, numbered 1, 2, ... in order,
    whose count is its number of signs; grouping keeps each page's
    labels and rounded positions, in the order the page extractor found
    them. *)
Theorem pdf_results_consistent (round2 : Q -> Q) (doc : list page_layer) :
  let r := extract_signs_from_pdf round2 doc in
  total_signs_detected r
  = fold_right Z.add 0 (map (fun pr => Z.of_nat (List.length (pr_signs pr))) (pages r))
  /\ Forall2 (fun pp pr =>
        pr_page pr = fst pp
        /\ pr_signs_detected pr = Z.of_nat (List.length (pr_signs pr))
        /\ map (fun g => (g_sign_number g, g_x g, g_y g)) (pr_signs pr)
           = map (fun s => (sign_number s, round2 (hotspot_x_percentage s),
                            round2 (hotspot_y_percentage s)))
                 (extract_signs_from_page (snd pp) (fst pp)))
      (enumerate 1 doc) (pages r).
Proof.
  cbv zeta. unfold extract_signs_from_pdf, group_results. rewrite pdf_fold. simpl.
  assert (Hlen : forall L, List.length (group_page default_threshold L) = List.length L).
  { intros L. rewrite <- (length_map key (group_page _ L)), <- (length_map key L).
    fold (keys (group_page default_threshold L)) (keys L). now rewrite group_page_keys. }
  split.
  - rewrite !map_map. f_equal. apply map_ext. intros [n p]. simpl.
    now rewrite Hlen, length_map.
  - rewrite map_map. apply Forall2_map_self. intros [n p]. simpl.
    rewrite Hlen, length_map. split; [reflexivity|]. split; [reflexivity|].
    change (map (fun g => (g_sign_number g, g_x g, g_y g)) (group_page default_threshold
              (map (sign_entry round2) (extract_signs_from_page p n))))
      with (keys (group_page default_threshold (map (sign_entry round2) (extract_signs_from_page p n)))).
    rewrite group_page_keys. unfold keys. rewrite map_map. reflexivity.
Qed.

(** After grouping, a sign carries no group keys, or a group label
    ["<base> series (<n> signs)"] and group size [n] with [n >= 2], where
    its own label starts with [base] followed by a dot. *)
Theorem pdf_group_annotations (round2 : Q -> Q) (doc : list page_layer) :
  forall pr g, In pr (pages (extract_signs_from_pdf round2 doc)) -> In g (pr_signs pr) ->
  (group g = None /\ group_size g = None)
  \/ (exists base n, group g = Some (group_label base n) /\ group_size g = Some (Z.of_nat n)
                     /\ (2 <= n)%nat /\ String.prefix (base ++ ".") (g_sign_number g) = true
                     /\ PyStr.contains_char "."%char (g_sign_number g) = true).
Proof.
  intros pr g Hpr Hg. unfold extract_signs_from_pdf, group_results in Hpr.
  rewrite pdf_fold in Hpr. simpl in Hpr.
  apply in_map_iff in Hpr as [pr0 [<- Hpr0]]. simpl in Hg.
  apply in_map_iff in Hpr0 as [[n p] [<- _]]. simpl in Hg.
  assert (Hok : annotation_ok g).
  { eapply group_page_ok; [|exact Hg].
    intros s Hs. apply in_map_iff in Hs as [h [<- _]]. left. split; reflexivity. }
  destruct Hok as [Hnone|(base & k & H1 & H2 & H3 & H4)]; [now left|].
  right. exists base, k. repeat split; try assumption. eapply prefix_contains_dot. exact H4.
Qed.


Lemma pdf_group_annotations_witness :
  exists pr g, In pr (pages (extract_signs_from_pdf (fun v => v) [series_page]))
  /\ In g (pr_signs pr) /\ group g = Some "2001 series (2 signs)"%string
  /\ ((group g = None /\ group_size g = None)
      \/ (exists base n, group g = Some (group_label base n) /\ group_size g = Some (Z.of_nat n)
                         /\ (2 <= n)%nat /\ String.prefix (base ++ ".") (g_sign_number g) = true
                         /\ PyStr.contains_char "."%char (g_sign_number g) = true)).
Proof.
  set (pr := nth 0 (pages (extract_signs_from_pdf (fun v => v) [series_page])) no_page).
  set (g := nth 0 (pr_signs pr) no_gsign).
  assert (Hpr : In pr (pages (extract_signs_from_pdf (fun v => v) [series_page])))
    by (vm_compute; left; reflexivity).
  assert (Hg : In g (pr_signs pr)) by (vm_compute; left; reflexivity).
  exists pr, g. split; [exact Hpr|]. split; [exact Hg|]. split; [vm_compute; reflexivity|].
  exact (pdf_group_annotations (fun v => v) [series_page] pr g Hpr Hg).
Defined.

End PdfGroupProofs.
